(** * FlightDataAnalyzer: derived parameters and the airport lookup handlers

    A shallow embedding of [analysis/derived_parameters.py] and
    [analysis_engine/api_handler_analysis_engine.py].

    Samples are floating point numbers in the program; here they are exact
    rationals ([Q]), so every arithmetic statement below is a statement about
    the formula the code evaluates, without rounding.  Arrays are numpy
    masked arrays: every position carries a value and a validity flag. *)

From Stdlib Require Import QArith Qminmax Lqa Ascii String.
From stdpp Require Import base list strings gmap.

(** ** Python results: a value, or an exception raised *)

Inductive exn : Type :=
  | IndexError
  | ValueError
  | AttributeError
  | KeyError (key : string)
  | NotFoundError (msg : string).

Inductive result (A : Type) : Type :=
  | Ok (a : A)
  | Raise (e : exn).
Arguments Ok {A} a.
Arguments Raise {A} e.

#[global] Instance result_ret : MRet result := fun _ a => Ok a.
#[global] Instance result_bind : MBind result := fun _ _ f m =>
  match m with
  | Ok a => f a
  | Raise e => Raise e
  end.

Definition is_raise {A} (r : result A) : Prop :=
  match r with
  | Ok _ => False
  | Raise _ => True
  end.

(** ** numpy masked arrays *)

Module Numpy.

(** One position of a masked array: the stored number and its mask flag
    ([true] = invalid).  A scalar read from a masked array is modelled by the
    same record: [np.ma.masked] is a sample whose flag is set. *)
Record sample : Type := Sample { data : Q; mask : bool }.

Abbreviation masked_array := (list sample).
Abbreviation ndarray := (list Q).

Definition unmasked (s : sample) : Prop := mask s = false.

(** [np.ma.zeros(n)] *)
Definition ma_zeros (n : nat) : masked_array := replicate n (Sample 0 false).

(** [a.data] : the stored numbers, masked or not. *)
Definition ma_data (a : masked_array) : ndarray := map data a.

(** [a[i]] for a non-negative integer index. *)
Definition getitem (a : masked_array) (i : nat) : result sample :=
  match a !! i with
  | Some s => Ok s
  | None => Raise IndexError
  end.

(** [a[b:e]] for non-negative bounds: positions [b <= i < min e (len a)]. *)
Definition slice {A} (a : list A) (b e : nat) : list A := take (e - b) (drop b a).

(** [out[b:e] = v] : the value must have the length of the target slice,
    or length one (it is then repeated); data and mask are both stored. *)
Definition setslice (out : masked_array) (b e : nat) (v : masked_array)
  : result masked_array :=
  let n := length (slice out b e) in
  if decide (length v = n) then Ok (list_inserts b v out)
  else match v with
       | [s] => Ok (list_inserts b (replicate n s) out)
       | _ => Raise ValueError
       end.

(** Elementwise operations on two one-dimensional arrays: equal lengths, or
    one of them of length one, which is then stretched; anything else raises
    [ValueError]. *)
Definition broadcast2 {A B C} (f : A -> B -> C) (xs : list A) (ys : list B)
  : result (list C) :=
  if decide (length xs = length ys) then Ok (zip_with f xs ys)
  else match xs, ys with
       | [x], _ => Ok (map (f x) ys)
       | _, [y] => Ok (map (fun x => f x y) xs)
       | _, _ => Raise ValueError
       end.

(** Binary arithmetic of [numpy.ma]: the result is masked where either
    operand is, and keeps the left operand's number there. *)
Definition ma_op (f : Q -> Q -> Q) (s t : sample) : sample :=
  let m := mask s || mask t in
  Sample (if m then data s else f (data s) (data t)) m.

Definition sample_sub : sample -> sample -> sample := ma_op Qminus.
Definition sample_add : sample -> sample -> sample := ma_op Qplus.
Definition sample_mul : sample -> sample -> sample := ma_op Qmult.

(** A plain number seen as a sample. *)
Definition scalar (x : Q) : sample := Sample x false.

(** [a - s], [a * x] with a scalar right operand. *)
Definition ma_sub_scalar (a : masked_array) (s : sample) : masked_array :=
  map (fun x => sample_sub x s) a.
Definition ma_mul_scalar (a : masked_array) (x : Q) : masked_array :=
  map (fun s => sample_mul s (scalar x)) a.

(** [a * r] with [r] a plain ndarray, and [a + b]. *)
Definition ma_mul_nd (a : masked_array) (r : ndarray) : result masked_array :=
  broadcast2 (fun s x => sample_mul s (scalar x)) a r.
Definition ma_add (a b : masked_array) : result masked_array :=
  broadcast2 sample_add a b.

(** Division is a domained operation: a zero divisor masks the result. *)
Definition sample_div (s : sample) (x : Q) : sample :=
  let m := mask s || Qeq_bool x 0 in
  Sample (if m then data s else data s / x) m.
Definition ma_div_scalar (a : masked_array) (x : Q) : masked_array :=
  map (fun s => sample_div s x) a.

(** Plain ndarray arithmetic with a scalar, [np.minimum] and [np.maximum]. *)
Definition nd_sub_scalar (r : ndarray) (x : Q) : ndarray := map (fun y => y - x)%Q r.
Definition nd_div_scalar (r : ndarray) (x : Q) : ndarray := map (fun y => y / x)%Q r.
Definition nd_rsub_scalar (x : Q) (r : ndarray) : ndarray := map (fun y => x - y)%Q r.
Definition np_minimum (r : ndarray) (x : Q) : ndarray := map (fun y => Qmin y x) r.
Definition np_maximum (r : ndarray) (x : Q) : ndarray := map (fun y => Qmax y x) r.

(** [np.ma.argmax]: masked positions are filled with the least value of the
    type before the search, the first position of the greatest value wins and
    an empty array raises [ValueError]. *)
Definition filled_min (s : sample) : option Q :=
  if mask s then None else Some (data s).

Definition filled_lt (x y : option Q) : bool :=
  match x, y with
  | None, Some _ => true
  | Some a, Some b => negb (Qle_bool b a)
  | _, None => false
  end.

Fixpoint argmax_from (best_i : nat) (best : option Q) (i : nat) (a : masked_array) : nat :=
  match a with
  | [] => best_i
  | s :: a' =>
      if filled_lt best (filled_min s)
      then argmax_from i (filled_min s) (S i) a'
      else argmax_from best_i best (S i) a'
  end.

Definition ma_argmax (a : masked_array) : result nat :=
  match a with
  | [] => Raise ValueError
  | s :: a' => Ok (argmax_from 0 (filled_min s) 1 a')
  end.

(** [x < y] on two scalars read from a masked array, used as a condition:
    a masked operand makes the comparison masked, which is false in an [if]. *)
Definition scalar_lt (x y : sample) : bool :=
  negb (mask x) && negb (mask y) && negb (Qle_bool (data y) (data x)).

End Numpy.

(** ** Loops over a Python sequence, stopping at the first exception *)

Fixpoint for_each {A S} (body : S -> A -> result S) (s : S) (l : list A) : result S :=
  match l with
  | [] => Ok s
  | x :: l' => s' ← body s x; for_each body s' l'
  end.

(** ** analysis/derived_parameters.py *)

Module DerivedParameters.
Import Numpy.

(** A recorded or derived channel ([analysis.node.Parameter]). *)
Record parameter : Type := mkParameter {
  name : string;
  array : masked_array;
  hz : Q;
  offset : Q
}.

(** The [slice] of one section of a flight phase: the half-open index range
    [start, stop) on the timeline of the reference channel. *)
Record span : Type := Span { start : nat; stop : nat }.

(** [name in available] *)
Definition contains (available : list string) (n : string) : bool :=
  bool_decide (n ∈ available).

Section Nodes.

(** analysis.library and settings are not part of the sources at hand: the
    filters and constants the nodes use are parameters of the development.
    A node argument is [None] when its channel is not available, and a
    [Parameter] object counts as true in a condition: [if p:] is a match on
    an option below. *)
Variable first_order_washout : masked_array -> Q -> Q -> option sample -> masked_array.
Variable first_order_lag : masked_array -> Q -> Q -> Q -> masked_array.
Variable rate_of_change : parameter -> nat -> masked_array.
(** [repair_mask x] is the array the call returns; [repair_mask_inplace x] is
    what the argument array holds once the call has returned (the call may or
    may not repair its argument in place). *)
Variable repair_mask : masked_array -> masked_array.
Variable repair_mask_inplace : masked_array -> masked_array.

Variables AZ_WASHOUT_TC GRAVITY KTS_TO_FPS RATE_OF_CLIMB_LAG_TC : Q.

(** Sample rate and offset a [Parameter] gets when none is given. *)
Variables default_hz default_offset : Q.

Definition P (n : string) (a : masked_array) : parameter :=
  mkParameter n a default_hz default_offset.

(** *** AccelerationForwardsForFlightPhases *)

Definition AccelerationForwardsForFlightPhases_can_operate (available : list string) : bool :=
  if contains available "Airspeed" then true
  else if contains available "Acceleration Longitudinal" then true
  else false.

Definition AccelerationForwardsForFlightPhases_derive
    (acc_long airspeed : option parameter) : result masked_array :=
  match acc_long with
  | Some acc_long => Ok (repair_mask (array acc_long))
  | None =>
      match airspeed with
      | None => Raise AttributeError
      | Some airspeed =>
          let aspd := P "Aspd" (repair_mask (array airspeed)) in
          let roc_aspd :=
            ma_div_scalar (ma_mul_scalar (rate_of_change aspd 1) KTS_TO_FPS) GRAVITY in
          Ok roc_aspd
      end
  end.

(** *** AltitudeAALForFlightPhases *)

(** The body of [for speedy in fast], on the altitude array [a] as the loop
    reads it and the output array built so far. *)
Definition AltitudeAALForFlightPhases_span (a out : masked_array) (speedy : span)
  : result masked_array :=
  let begin := start speedy in
  let end_ := stop speedy in
  peak ← ma_argmax (slice a begin end_);
  at_begin ← getitem a begin;
  out ← setslice out begin (begin + peak)
          (ma_sub_scalar (slice a begin (begin + peak)) at_begin);
  at_end ← getitem a end_;
  setslice out (begin + peak) end_
    (ma_sub_scalar (slice a (begin + peak) end_) at_end).

Definition AltitudeAALForFlightPhases_derive (alt_std : parameter) (fast : list span)
  : result masked_array :=
  let out := ma_zeros (length (array alt_std)) in
  let a := repair_mask_inplace (array alt_std) in
  for_each (AltitudeAALForFlightPhases_span a) out fast.

(** *** ClimbForFlightPhases *)

(** [self.array[ax][i] = v]: the write goes through a temporary view of the
    output array.  The output comes from [np.ma.zeros] and owns no mask array,
    so a number is stored in the shared data, while a masked value only marks
    the mask the view makes for itself and leaves the output as it was. *)
Definition view_setitem (out : masked_array) (ax : span) (i : nat) (v : sample)
  : result masked_array :=
  if decide (i < length (slice out (start ax) (stop ax)))
  then Ok (if mask v then out else <[start ax + i := v]> out)
  else Raise IndexError.

(** One turn of [for count in range(1, ax.stop - ax.start)]; the state is
    [(curr_alt, self.array)]. *)
Definition ClimbForFlightPhases_step (a : masked_array) (ax : span)
    (st : sample * masked_array) (count : nat) : result (sample * masked_array) :=
  let '(curr_alt, out) := st in
  let view := slice a (start ax) (stop ax) in
  x ← getitem view count;
  y ← getitem view (count - 1);
  if scalar_lt x y then
    out' ← view_setitem out ax count (scalar 0);
    Ok (x, out')
  else
    out' ← view_setitem out ax count (sample_sub x curr_alt);
    Ok (curr_alt, out').

Definition ClimbForFlightPhases_span (a out : masked_array) (ax : span)
  : result masked_array :=
  curr_alt ← getitem (slice a (start ax) (stop ax)) 0;
  out ← view_setitem out ax 0 (scalar 0);
  st ← for_each (ClimbForFlightPhases_step a ax) (curr_alt, out)
         (seq 1 (stop ax - start ax - 1));
  Ok (snd st).

Definition ClimbForFlightPhases_derive (alt_std : parameter) (airs : list span)
  : result masked_array :=
  let out := ma_zeros (length (array alt_std)) in
  let a := repair_mask_inplace (array alt_std) in
  for_each (ClimbForFlightPhases_span a) out airs.

(** *** RateOfClimb *)

Definition RateOfClimb_can_operate (available : list string) : bool :=
  if contains available "Altitude STD" then true else false.

(** [std_rad_ratio] *)
Definition RateOfClimb_std_rad_ratio (alt_rad : parameter) : ndarray :=
  np_maximum
    (np_minimum (nd_div_scalar (nd_sub_scalar (ma_data (array alt_rad)) 50) 50) 1)
    0.

(** [roc_altitude], up to and including the division by the time constant. *)
Definition RateOfClimb_roc_altitude (az alt_std alt_rad : parameter)
  : result masked_array :=
  let roc_alt_std :=
    first_order_washout (array alt_std) RATE_OF_CLIMB_LAG_TC (hz az) None in
  let roc_alt_rad :=
    first_order_washout (array alt_rad) RATE_OF_CLIMB_LAG_TC (hz az) None in
  let std_rad_ratio := RateOfClimb_std_rad_ratio alt_rad in
  from_std ← ma_mul_nd roc_alt_std std_rad_ratio;
  from_rad ← ma_mul_nd roc_alt_rad (nd_rsub_scalar 1 std_rad_ratio);
  roc_altitude ← ma_add from_std from_rad;
  Ok (ma_div_scalar roc_altitude RATE_OF_CLIMB_LAG_TC).

Definition RateOfClimb_derive (az : option parameter) (alt_std : parameter)
    (alt_rad : option parameter) : result masked_array :=
  match az, alt_rad with
  | Some az, Some alt_rad =>
      roc_altitude ← RateOfClimb_roc_altitude az alt_std alt_rad;
      az0 ← getitem (array az) 0;
      let az_washout :=
        first_order_washout (array az) AZ_WASHOUT_TC (hz az) (Some az0) in
      let inertial_roc :=
        first_order_lag az_washout RATE_OF_CLIMB_LAG_TC (hz az)
          (GRAVITY * RATE_OF_CLIMB_LAG_TC) in
      total ← ma_add roc_altitude inertial_roc;
      Ok (ma_mul_scalar total 60)
  | _, _ => Ok (ma_mul_scalar (rate_of_change alt_std 2) 60)
  end.

End Nodes.
End DerivedParameters.

(** ** analysis_engine/api_handler_analysis_engine.py *)

Module ApiHandler.

(** The Python values the handlers are called with. *)
Inductive pyval : Type :=
  | PNone
  | PInt (z : Z)
  | PFloat (q : Q)
  | PStr (s : string).

(** A decoded JSON reply: a dictionary from keys to values. *)
Abbreviation reply := (gmap string pyval).

(** *** AnalysisEngineAPIHandlerDummy *)

Module AnalysisEngineAPIHandlerDummy.

Definition get_airport (args : list pyval) (kwargs : gmap string pyval) : result pyval :=
  Raise (NotFoundError "Dummy API handler always returns nothing...").

Definition get_nearest_airport (args : list pyval) (kwargs : gmap string pyval)
  : result pyval :=
  Raise (NotFoundError "Dummy API handler always returns nothing...").

Definition get_nearest_runway (args : list pyval) (kwargs : gmap string pyval)
  : result pyval :=
  Raise (NotFoundError "Dummy API handler always returns nothing...").

End AnalysisEngineAPIHandlerDummy.

(** *** AnalysisEngineAPIHandlerHTTP *)

(** A float argument in a condition: [None] and zero are false. *)
Definition float_truthy (x : option Q) : bool :=
  match x with
  | Some q => negb (Qeq_bool q 0)
  | None => false
  end.

(** A coordinate that was given and is the number zero. *)
Definition zero_coordinate (x : option Q) : Prop :=
  exists q, x = Some q /\ (q == 0)%Q.

(** [s.rstrip('/')] *)
Fixpoint lstrip_slash (cs : list ascii) : list ascii :=
  match cs with
  | c :: cs' => if Ascii.eqb c "/" then lstrip_slash cs' else cs
  | [] => []
  end.

Definition rstrip_slash (s : string) : string :=
  string_of_list_ascii (rev (lstrip_slash (rev (list_ascii_of_string s)))).

Module AnalysisEngineAPIHandlerHTTP.
Section HTTP.

(** [settings.BASE_URL], the formatting of values by [%s] and of a
    coordinate pair by ['%f,%f'], [urllib.urlencode] and the inherited
    [_attempt_request] come from outside the sources at hand.
    [int_times_1000 f] is [int(f * 1000)] on a float: the product is rounded
    to a double before it is truncated, so it is not computed on the rational
    here. *)
Variable BASE_URL : string.
Variable str : pyval -> string.
Variable format_ll : Q -> Q -> string.
Variable int_times_1000 : Q -> Z.
Variable urlencode : gmap string pyval -> string.
Variable _attempt_request : string -> result reply.

(** The [params] dictionary of [get_nearest_runway] just before it is
    encoded. *)
Definition get_nearest_runway_params (heading : pyval)
    (latitude longitude ilsfreq : option Q) (hint : option string)
  : gmap string pyval :=
  let params : gmap string pyval := {[ "heading" := heading ]} in
  let params :=
    match latitude, longitude with
    | Some la, Some lo =>
        if float_truthy latitude && float_truthy longitude
        then <[ "ll" := PStr (format_ll la lo) ]> params
        else params
    | _, _ => params
    end in
  let params :=
    match ilsfreq with
    | Some f =>
        if float_truthy ilsfreq
        then <[ "ilsfreq" := PInt (int_times_1000 f) ]> params
        else params
    | None => params
    end in
  match hint with
  | Some h =>
      if bool_decide (h ∈ ["takeoff"; "landing"; "approach"])
      then <[ "hint" := PStr h ]> params
      else params
  | None => params
  end.

(** The URL that [get_nearest_runway] requests. *)
Definition get_nearest_runway_url (airport heading : pyval)
    (latitude longitude ilsfreq : option Q) (hint : option string) : string :=
  let url :=
    rstrip_slash BASE_URL +:+ "/api/airport/" +:+ str airport
      +:+ "/runway/nearest.json" in
  url +:+ "?"
    +:+ urlencode (get_nearest_runway_params heading latitude longitude ilsfreq hint).

Definition get_nearest_runway (airport heading : pyval)
    (latitude longitude ilsfreq : option Q) (hint : option string) : result pyval :=
  match _attempt_request
          (get_nearest_runway_url airport heading latitude longitude ilsfreq hint) with
  | Ok r =>
      match r !! "runway" with
      | Some v => Ok v
      | None => Raise (KeyError "runway")
      end
  | Raise e => Raise e
  end.

End HTTP.
End AnalysisEngineAPIHandlerHTTP.

End ApiHandler.

(** ** More nodes of analysis/derived_parameters.py *)

Module MoreNodes.
Import Numpy DerivedParameters.

(** [a - b] on two masked arrays. *)
Definition ma_sub (a b : masked_array) : result masked_array :=
  broadcast2 sample_sub a b.

(** *** AirspeedMinusVref *)

Section Aligned.

(** [align(source, target)] of analysis.library, not part of the sources at
    hand: the array of [source] brought onto the timeline of [target]. *)
Variable align : parameter -> parameter -> masked_array.

Definition AirspeedMinusVref_derive (airspeed vref : parameter) : result masked_array :=
  let vref_aligned := align vref airspeed in
  ma_sub (array airspeed) vref_aligned.

End Aligned.

(** *** EngN1Average, EngN1Minimum, EngN2Average *)

(** The three capability predicates have the same body: [True] when some
    declared input is available, and no [return] otherwise, which is
    [None]. *)
Definition any_available (dependency_names available : list string) : bool :=
  existsb (contains available) dependency_names.

Definition Eng_can_operate (dependency_names available : list string) : option bool :=
  if any_available dependency_names available then Some true else None.

(** Modelled from the spec: [get_dependency_names], a class method of the
    node base class that is not part of the sources at hand, gives the names a
    node declares as inputs, here the defaults of the arguments of [derive]. *)
Definition EngN1_dependency_names : list string :=
  ["Eng (1) N1"; "Eng (2) N1"; "Eng (3) N1"; "Eng (4) N1"].
Definition EngN2_dependency_names : list string :=
  ["Eng (1) N2"; "Eng (2) N2"; "Eng (3) N2"; "Eng (4) N2"].

Definition EngN1Average_can_operate := Eng_can_operate EngN1_dependency_names.
Definition EngN1Minimum_can_operate := Eng_can_operate EngN1_dependency_names.
Definition EngN2Average_can_operate := Eng_can_operate EngN2_dependency_names.

(** A condition on what a capability predicate returns. *)
Definition py_truth (r : option bool) : bool :=
  match r with
  | Some b => b
  | None => false
  end.

(** The arrays of the channels that are present. *)
Definition present_arrays (params : list (option parameter)) : list masked_array :=
  omap (fmap array) params.

Section Stacking.

(** Modelled from the spec: [vstack_params] of analysis.library, not part of
    the sources at hand, stacks the arrays of the channels that are present
    into the rows of a two-dimensional array.  What the call does when there
    is nothing to stack, or when the rows differ in length, is not described:
    it is left to [vstack_failure]. *)
Variable vstack_failure : list masked_array -> result (list masked_array).

Definition vstack_params (params : list (option parameter)) : result (list masked_array) :=
  match present_arrays params with
  | [] => vstack_failure []
  | row :: rows =>
      if forallb (fun r => Nat.eqb (length r) (length row)) rows
      then Ok (row :: rows)
      else vstack_failure (row :: rows)
  end.

(** The valid numbers of column [i]. *)
Definition column (rows : list masked_array) (i : nat) : list Q :=
  omap (fun row => s ← row !! i; if mask s then None else Some (data s)) rows.

Definition Qsum (l : list Q) : Q := foldr Qplus 0%Q l.

Definition Qminimum (x : Q) (l : list Q) : Q := foldr Qmin x l.

(** [np.ma.average(rows, axis=0)] and [np.ma.min(rows, axis=0)] on stacked
    rows: each column is reduced over its valid numbers, and a column without
    any is masked (the number kept under that mask has no meaning; it is 0
    here).  The average is the exact quotient of the sum by the count. *)
Definition average_column (c : list Q) : sample :=
  match c with
  | [] => Sample 0 true
  | _ :: _ => Sample (Qsum c / inject_Z (Z.of_nat (length c))) false
  end.

Definition min_column (c : list Q) : sample :=
  match c with
  | [] => Sample 0 true
  | x :: c' => Sample (Qminimum x c') false
  end.

Definition reduce_axis0 (f : list Q -> sample) (rows : list masked_array) : masked_array :=
  match rows with
  | [] => []
  | row :: _ => map (fun i => f (column rows i)) (seq 0 (length row))
  end.

Definition ma_average_axis0 := reduce_axis0 average_column.
Definition ma_min_axis0 := reduce_axis0 min_column.

Definition EngN1Average_derive (eng1 eng2 eng3 eng4 : option parameter)
  : result masked_array :=
  engines ← vstack_params [eng1; eng2; eng3; eng4];
  Ok (ma_average_axis0 engines).

Definition EngN1Minimum_derive (eng1 eng2 eng3 eng4 : option parameter)
  : result masked_array :=
  engines ← vstack_params [eng1; eng2; eng3; eng4];
  Ok (ma_min_axis0 engines).

Definition EngN2Average_derive (eng1 eng2 eng3 eng4 : option parameter)
  : result masked_array :=
  engines ← vstack_params [eng1; eng2; eng3; eng4];
  Ok (ma_average_axis0 engines).

End Stacking.

(** An output array of length [n] without masked samples. *)
Definition clean (n : nat) (out : masked_array) : Prop :=
  length out = n /\ Forall unmasked out.

End MoreNodes.

(** ** More of the HTTP handler *)

Module MoreLookups.
Import ApiHandler.

Section HTTP.

Variable BASE_URL : string.
Variable str : pyval -> string.
Variable format_ll : Q -> Q -> string.
Variable _attempt_request : string -> result reply.

(** [reply[key]] on what [_attempt_request] gave. *)
Definition item (r : result reply) (key : string) : result pyval :=
  match r with
  | Ok d =>
      match d !! key with
      | Some v => Ok v
      | None => Raise (KeyError key)
      end
  | Raise e => Raise e
  end.

Definition get_airport_url (code : pyval) : string :=
  rstrip_slash BASE_URL +:+ "/api/airport/" +:+ str code +:+ "/".

Definition get_airport (code : pyval) : result pyval :=
  item (_attempt_request (get_airport_url code)) "airport".

Definition get_nearest_airport_url (latitude longitude : Q) : string :=
  rstrip_slash BASE_URL +:+ "/api/airport/nearest.json?ll=" +:+ format_ll latitude longitude.

Definition get_nearest_airport (latitude longitude : Q) : result pyval :=
  item (_attempt_request (get_nearest_airport_url latitude longitude)) "airport".

End HTTP.

End MoreLookups.

(** ** Concrete data for the examples

    Channels without masked samples, and the simplest stand-ins for the
    library functions that are not part of the sources: they are only used
    to run the nodes on concrete arrays. *)

Module Fixtures.
Import Numpy DerivedParameters.

Definition plain (l : list Q) : masked_array := map scalar l.

Definition channel (n : string) (l : list Q) : parameter :=
  mkParameter n (plain l) 1 0.

Definition no_repair (a : masked_array) : masked_array := a.

Definition stand_in_filter (a : masked_array) (tc h : Q) (init : option sample)
  : masked_array := a.

(** A stand-in for [int(f * 1000)]: the truncation towards zero of the exact
    product. *)
Definition truncate_times_1000 (f : Q) : Z :=
  Z.quot (Qnum (f * 1000)) (Z.pos (Qden (f * 1000))).

Definition stand_in_rate_of_change (p : parameter) (width : nat) : masked_array :=
  array p.

End Fixtures.

(** ** Vocabulary of the statements *)

Module Vocabulary.
Import Numpy DerivedParameters.

#[global] Instance sample_inhabited : Inhabited sample := populate (Sample 0 false).

(** The changeover ratio as the specification words it:
    clamp((radio_altitude - 50) / 50, 0, 1). *)
Definition clamp (x lo hi : Q) : Q :=
  if Qlt_le_dec x lo then lo else if Qlt_le_dec hi x then hi else x.

Definition spec_ratio (radio_altitude : Q) : Q :=
  clamp ((radio_altitude - 50) / 50) 0 1.

(** One position of the blend, as the arithmetic of masked arrays computes
    it from a washed-out barometric sample [b], a washed-out radio sample [w]
    and the ratio [r]. *)
Definition blend_sample (tc : Q) (b w : sample) (r : Q) : sample :=
  sample_div
    (sample_add (sample_mul b (scalar r)) (sample_mul w (scalar (1 - r)))) tc.

(** Positions of a span, and spans that share no position. *)
Definition in_span (sp : span) (i : nat) : Prop := start sp <= i < stop sp.

#[global] Instance in_span_dec sp i : Decision (in_span sp i).
Proof. unfold in_span. apply _. Defined.

Definition disjoint (s t : span) : Prop := stop s <= start t \/ stop t <= start s.

(** The position [np.ma.argmax] returns on a non-empty array. *)
Definition argmax_of (a : masked_array) : nat :=
  match a with
  | [] => 0
  | s :: a' => argmax_from 0 (filled_min s) 1 a'
  end.

(** The filled values [np.ma.argmax] compares: masked below every number. *)
Definition filled_le (x y : option Q) : Prop := filled_lt y x = false.

(** The climb helper, read off the loop of [ClimbForFlightPhases]: [prev] is
    the sample before the ones still to come, [curr_alt] the tracked floor.
    [climb_from] lists what is stored for the samples to come and
    [floor_after] is the floor once they are all seen. *)
Fixpoint climb_from (prev curr_alt : sample) (l : masked_array) : masked_array :=
  match l with
  | [] => []
  | x :: l' =>
      if scalar_lt x prev then scalar 0 :: climb_from x x l'
      else sample_sub x curr_alt :: climb_from x curr_alt l'
  end.

Fixpoint floor_after (prev curr_alt : sample) (l : masked_array) : sample :=
  match l with
  | [] => curr_alt
  | x :: l' =>
      if scalar_lt x prev then floor_after x x l' else floor_after x curr_alt l'
  end.

(** The values stored for a whole span, and the floor after [k] turns of
    the loop over it. *)
Definition climb_of (view : masked_array) : masked_array :=
  match view with
  | [] => []
  | x0 :: rest => scalar 0 :: climb_from x0 x0 rest
  end.

Definition running_floor (view : masked_array) (k : nat) : sample :=
  match view with
  | [] => Sample 0 false
  | x0 :: rest => floor_after x0 x0 (take k rest)
  end.

(** What [AltitudeAALForFlightPhases] stores at position [i] of a span: the altitude less the
    altitude at the start of the span before the peak, less the altitude at
    index [stop] from the peak on. *)
Definition aal_value (a : masked_array) (sp : span) (i : nat) : sample :=
  if decide (i < start sp + argmax_of (slice a (start sp) (stop sp)))
  then sample_sub (a !!! i) (a !!! start sp)
  else sample_sub (a !!! i) (a !!! stop sp).

(** What [ClimbForFlightPhases] stores at position [i] of a span, and the
    spans it is meant for: not empty, inside the array, without masked
    samples. *)
Definition climb_value (a : masked_array) (sp : span) (i : nat) : sample :=
  climb_of (slice a (start sp) (stop sp)) !!! (i - start sp).

Definition climb_valid (a : masked_array) (sp : span) : Prop :=
  start sp < stop sp <= length a /\ Forall unmasked (slice a (start sp) (stop sp)).

End Vocabulary.

(** * Properties *)

(** ** The lookup handlers *)

Module ApiHandlerFacts.
Import ApiHandler.

(** C8: every call of [get_airport], [get_nearest_airport] or
    [get_nearest_runway] on the dummy handler, whatever its positional and
    keyword arguments, raises [NotFoundError]; none of them returns a value. *)
Theorem dummy_always_raises_NotFoundError (args : list pyval) (kwargs : gmap string pyval) :
  (exists msg, AnalysisEngineAPIHandlerDummy.get_airport args kwargs
               = Raise (NotFoundError msg))
  /\ (exists msg, AnalysisEngineAPIHandlerDummy.get_nearest_airport args kwargs
                  = Raise (NotFoundError msg))
  /\ (exists msg, AnalysisEngineAPIHandlerDummy.get_nearest_runway args kwargs
                  = Raise (NotFoundError msg))
  /\ (forall v, AnalysisEngineAPIHandlerDummy.get_airport args kwargs <> Ok v
                /\ AnalysisEngineAPIHandlerDummy.get_nearest_airport args kwargs <> Ok v
                /\ AnalysisEngineAPIHandlerDummy.get_nearest_runway args kwargs <> Ok v).
Proof.
  repeat split; try (eexists; reflexivity); discriminate.
Qed.

Section RunwayQuery.
Import AnalysisEngineAPIHandlerHTTP.

Variable BASE_URL : string.
Variable str : pyval -> string.
Variable format_ll : Q -> Q -> string.
Variable int_times_1000 : Q -> Z.
Variable urlencode : gmap string pyval -> string.
Variable _attempt_request : string -> result reply.

Local Abbreviation params := (get_nearest_runway_params format_ll int_times_1000).
Local Abbreviation url :=
  (get_nearest_runway_url BASE_URL str format_ll int_times_1000 urlencode).
Local Abbreviation nearest_runway :=
  (get_nearest_runway BASE_URL str format_ll int_times_1000 urlencode _attempt_request).

Lemma float_truthy_zero (q : Q) : (q == 0)%Q -> float_truthy (Some q) = false.
Proof.
  intros Hq. unfold float_truthy.
  apply Qeq_bool_iff in Hq. now rewrite Hq.
Qed.

(** The later entries of the dictionary never touch the key ["ll"]. *)
Lemma params_ll heading latitude longitude ilsfreq hint :
  params heading latitude longitude ilsfreq hint !! "ll"
  = match latitude, longitude with
    | Some la, Some lo =>
        if float_truthy latitude && float_truthy longitude
        then Some (PStr (format_ll la lo)) else None
    | _, _ => None
    end.
Proof.
  unfold get_nearest_runway_params.
  destruct hint as [h|]; [destruct (bool_decide _)|];
    rewrite ?lookup_insert_ne by discriminate;
    (destruct ilsfreq as [f|]; [destruct (float_truthy (Some f))|]);
    rewrite ?lookup_insert_ne by discriminate;
    (destruct latitude as [la|], longitude as [lo|]; try reflexivity);
    destruct (float_truthy (Some la) && float_truthy (Some lo));
    rewrite ?lookup_insert_eq; reflexivity.
Qed.

Lemma params_falsy_coordinates heading latitude longitude ilsfreq hint :
  float_truthy latitude = false \/ float_truthy longitude = false ->
  params heading latitude longitude ilsfreq hint
  = params heading None None ilsfreq hint.
Proof.
  intros H. unfold get_nearest_runway_params.
  destruct latitude as [la|], longitude as [lo|]; try reflexivity.
  replace (float_truthy (Some la) && float_truthy (Some lo)) with false; [reflexivity|].
  destruct H as [-> | ->]; [reflexivity | now rewrite andb_false_r].
Qed.

(** The entry is present exactly when both coordinates are true as
    conditions. *)
Lemma params_ll_present heading latitude longitude ilsfreq hint :
  is_Some (params heading latitude longitude ilsfreq hint !! "ll")
  <-> float_truthy latitude = true /\ float_truthy longitude = true.
Proof.
  rewrite params_ll.
  destruct latitude as [la|], longitude as [lo|]; simpl;
    try (split; [intros [? ?]; discriminate | intros [? ?]; discriminate]).
  destruct (Qeq_bool la 0), (Qeq_bool lo 0); simpl;
    split; try (intros [? ?]; discriminate); eauto.
Qed.

Lemma zero_coordinate_falsy (x : option Q) :
  zero_coordinate x -> float_truthy x = false.
Proof. intros (q & -> & Hq). now apply float_truthy_zero. Qed.

(** C10: [get_nearest_runway] puts the ["ll"] entry in the query exactly
    when latitude and longitude are both true as conditions.  When the
    latitude or the longitude is the number zero the entry is left out: the
    dictionary, the URL and the whole call are then those of a call made
    without coordinates. *)
Theorem get_nearest_runway_drops_zero_coordinates
    (airport heading : pyval) (latitude longitude ilsfreq : option Q)
    (hint : option string) :
  zero_coordinate latitude \/ zero_coordinate longitude ->
  (forall la lo il hi,
     is_Some (params heading la lo il hi !! "ll")
     <-> float_truthy la = true /\ float_truthy lo = true)
  /\ params heading latitude longitude ilsfreq hint !! "ll" = None
  /\ params heading latitude longitude ilsfreq hint
     = params heading None None ilsfreq hint
  /\ url airport heading latitude longitude ilsfreq hint
     = url airport heading None None ilsfreq hint
  /\ nearest_runway airport heading latitude longitude ilsfreq hint
     = nearest_runway airport heading None None ilsfreq hint.
Proof.
  intros H.
  assert (float_truthy latitude = false \/ float_truthy longitude = false) as H'
    by (destruct H as [H|H]; [left|right]; now apply zero_coordinate_falsy).
  pose proof (params_falsy_coordinates heading latitude longitude ilsfreq hint H') as Hp.
  split; [intros; apply params_ll_present|].
  split; [|split; [exact Hp|split]].
  - rewrite Hp, params_ll. reflexivity.
  - unfold get_nearest_runway_url. now rewrite Hp.
  - unfold get_nearest_runway, get_nearest_runway_url. now rewrite Hp.
Qed.

End RunwayQuery.

(** A call on the equator, latitude [0.0]. *)
Lemma get_nearest_runway_drops_zero_coordinates_witness :
  let format_ll := fun _ _ : Q => "0.000000,-78.500000"%string in
  let urlencode := fun m : gmap string pyval =>
    if bool_decide (is_Some (m !! "ll")) then "heading=170&ll=..." else "heading=170"%string in
  AnalysisEngineAPIHandlerHTTP.get_nearest_runway_url "http://host/" (fun _ => "QUITO")
      format_ll Fixtures.truncate_times_1000 urlencode
      (PStr "QUITO") (PInt 170) (Some 0%Q) (Some (-157 # 2)%Q) None None
  = "http://host/api/airport/QUITO/runway/nearest.json?heading=170"%string.
Proof.
  intros format_ll urlencode.
  pose proof (get_nearest_runway_drops_zero_coordinates "http://host/" (fun _ => "QUITO"%string)
    format_ll Fixtures.truncate_times_1000 urlencode (fun _ => Raise (NotFoundError ""))
    (PStr "QUITO") (PInt 170) (Some 0%Q) (Some (-157 # 2)%Q) None None
    (or_introl (ex_intro _ 0%Q (conj eq_refl (Qeq_refl 0)))))
    as (_ & _ & _ & Hurl & _).
  rewrite Hurl. reflexivity.
Defined.

End ApiHandlerFacts.

(** ** Capability predicates and the fallback branches *)

Module CapabilityFacts.
Import Numpy DerivedParameters.

Lemma contains_true (available : list string) (n : string) :
  contains available n = true <-> n ∈ available.
Proof. unfold contains. apply bool_decide_eq_true. Qed.

Lemma contains_cons_ne (available : list string) (n m : string) :
  n <> m -> contains (m :: available) n = contains available n.
Proof.
  intros Hne. unfold contains. apply bool_decide_ext.
  rewrite elem_of_cons. tauto.
Qed.

Lemma contains_filter_ne (available : list string) (n : string) (keep : string -> bool) :
  keep n = true -> contains (List.filter keep available) n = contains available n.
Proof.
  intros Hk. unfold contains. apply bool_decide_ext.
  rewrite !list_elem_of_In, List.filter_In. tauto.
Qed.

(** C6: [RateOfClimb.can_operate] is true exactly when ['Altitude STD'] is
    among the available names; adding vertical acceleration or radio altitude
    to the available names, or taking them away, never changes the answer. *)
Theorem RateOfClimb_can_operate_iff (available : list string) :
  (RateOfClimb_can_operate available = true <-> "Altitude STD" ∈ available)
  /\ (RateOfClimb_can_operate available = false <-> "Altitude STD" ∉ available)
  /\ RateOfClimb_can_operate ("Acceleration Vertical" :: available)
     = RateOfClimb_can_operate available
  /\ RateOfClimb_can_operate ("Altitude Radio" :: available)
     = RateOfClimb_can_operate available
  /\ RateOfClimb_can_operate
       (List.filter (fun n => negb (String.eqb n "Acceleration Vertical")
                              && negb (String.eqb n "Altitude Radio")) available)
     = RateOfClimb_can_operate available.
Proof.
  unfold RateOfClimb_can_operate.
  rewrite !contains_cons_ne by discriminate.
  rewrite contains_filter_ne by reflexivity.
  pose proof (contains_true available "Altitude STD") as H.
  destruct (contains available "Altitude STD"); repeat split;
    try tauto; try discriminate; intuition discriminate.
Qed.

Section ForwardsFallback.

Variable rate_of_change : parameter -> nat -> masked_array.
Variable repair_mask : masked_array -> masked_array.
Variables GRAVITY KTS_TO_FPS : Q.
Variables default_hz default_offset : Q.

Local Abbreviation forwards_derive :=
  (AccelerationForwardsForFlightPhases_derive rate_of_change repair_mask
     GRAVITY KTS_TO_FPS default_hz default_offset).

(** Multiplying by [KTS_TO_FPS] and then dividing by [GRAVITY] is a scaling
    by their quotient: the mask is kept, and a valid number is multiplied. *)
Lemma scale_then_divide (s : sample) :
  ~ (GRAVITY == 0)%Q ->
  let r := sample_div (sample_mul s (scalar KTS_TO_FPS)) GRAVITY in
  mask r = mask s
  /\ (mask s = false -> (data r == data s * (KTS_TO_FPS / GRAVITY))%Q).
Proof.
  intros Hg r. subst r. unfold sample_div, sample_mul, ma_op, scalar. simpl.
  assert (Qeq_bool GRAVITY 0 = false) as ->.
  { destruct (Qeq_bool GRAVITY 0) eqn:E; [|reflexivity].
    apply Qeq_bool_iff in E. contradiction. }
  rewrite !orb_false_r. split; [reflexivity|].
  intros ->. simpl. field. exact Hg.
Qed.

(** C7: the capability predicate of [AccelerationForwardsForFlightPhases]
    holds exactly when ['Airspeed'] or ['Acceleration Longitudinal'] is
    available: it is true with ['Airspeed'] alone and false with neither.
    With airspeed alone the derivation takes its fallback branch: the rate of
    change (window 1) of the mask-repaired airspeed, times [KTS_TO_FPS],
    divided by [GRAVITY], which for a non-zero [GRAVITY] scales every valid
    sample by [KTS_TO_FPS / GRAVITY]. *)
Theorem AccelerationForwardsForFlightPhases_airspeed_only
    (available : list string) (airspeed : parameter) :
  ~ (GRAVITY == 0)%Q ->
  let roc := rate_of_change (P default_hz default_offset "Aspd"
                               (repair_mask (array airspeed))) 1 in
  AccelerationForwardsForFlightPhases_can_operate ["Airspeed"] = true
  /\ (AccelerationForwardsForFlightPhases_can_operate available = true
      <-> "Airspeed" ∈ available \/ "Acceleration Longitudinal" ∈ available)
  /\ (AccelerationForwardsForFlightPhases_can_operate available = false
      <-> ("Airspeed" ∉ available) /\ ("Acceleration Longitudinal" ∉ available))
  /\ forwards_derive None (Some airspeed)
     = Ok (ma_div_scalar (ma_mul_scalar roc KTS_TO_FPS) GRAVITY)
  /\ (exists out, forwards_derive None (Some airspeed) = Ok out
      /\ length out = length roc
      /\ forall i s, roc !! i = Some s ->
         exists r, out !! i = Some r /\ mask r = mask s
           /\ (mask s = false -> (data r == data s * (KTS_TO_FPS / GRAVITY))%Q)).
Proof.
  intros Hg roc.
  split; [reflexivity|].
  pose proof (contains_true available "Airspeed") as Ha.
  pose proof (contains_true available "Acceleration Longitudinal") as Hl.
  unfold AccelerationForwardsForFlightPhases_can_operate.
  split; [|split; [|split; [reflexivity|]]].
  - destruct (contains available "Airspeed"),
      (contains available "Acceleration Longitudinal"); intuition discriminate.
  - destruct (contains available "Airspeed"),
      (contains available "Acceleration Longitudinal"); intuition discriminate.
  - eexists. split; [reflexivity|]. unfold ma_div_scalar, ma_mul_scalar.
    rewrite !length_map. split; [reflexivity|].
    intros i s Hi. fold roc. rewrite !list_lookup_fmap, Hi. simpl.
    eexists. split; [reflexivity|]. now apply scale_then_divide.
Qed.

End ForwardsFallback.

Section ClimbFallback.

Variable rate_of_change : parameter -> nat -> masked_array.
Variable first_order_washout : masked_array -> Q -> Q -> option sample -> masked_array.
Variable first_order_lag : masked_array -> Q -> Q -> Q -> masked_array.
Variables AZ_WASHOUT_TC GRAVITY RATE_OF_CLIMB_LAG_TC : Q.

Local Abbreviation roc_derive :=
  (RateOfClimb_derive first_order_washout first_order_lag rate_of_change
     AZ_WASHOUT_TC GRAVITY RATE_OF_CLIMB_LAG_TC).

(** Multiplying a masked array by a number keeps the length and every mask,
    and multiplies every valid sample. *)
Lemma ma_mul_scalar_lookup (a : masked_array) (x : Q) :
  length (ma_mul_scalar a x) = length a
  /\ forall i s, a !! i = Some s ->
       exists r, ma_mul_scalar a x !! i = Some r
         /\ mask r = mask s /\ data r = if mask s then data s else (data s * x)%Q.
Proof.
  unfold ma_mul_scalar. rewrite length_map. split; [reflexivity|].
  intros i s Hi. rewrite list_lookup_fmap, Hi. simpl.
  eexists. split; [reflexivity|].
  unfold sample_mul, ma_op, scalar. simpl. rewrite orb_false_r.
  split; reflexivity.
Qed.

(** C2: when vertical acceleration is missing, or radio altitude is missing,
    [RateOfClimb.derive] yields [rate_of_change(alt_std, 2) * 60], whatever
    the other optional input is: the call returns, its output has the length
    of that rate of change, every sample keeps the mask of the rate of
    change, and every valid sample is the rate of change times 60. *)
Theorem RateOfClimb_fallback (az alt_rad : option parameter) (alt_std : parameter) :
  let roc := rate_of_change alt_std 2 in
  let scaled_by_60 (out : masked_array) :=
    length out = length roc
    /\ forall i s, roc !! i = Some s ->
         exists r, out !! i = Some r /\ mask r = mask s
           /\ (mask s = false -> data r = (data s * 60)%Q) in
  roc_derive None alt_std alt_rad = Ok (ma_mul_scalar roc 60)
  /\ roc_derive az alt_std None = Ok (ma_mul_scalar roc 60)
  /\ (exists out, roc_derive None alt_std alt_rad = Ok out /\ scaled_by_60 out)
  /\ (exists out, roc_derive az alt_std None = Ok out /\ scaled_by_60 out).
Proof.
  intros roc scaled_by_60.
  assert (roc_derive az alt_std None = Ok (ma_mul_scalar roc 60)) as Hrad
    by (unfold RateOfClimb_derive; now destruct az).
  assert (scaled_by_60 (ma_mul_scalar roc 60)) as Hscaled.
  { destruct (ma_mul_scalar_lookup roc 60) as [Hlen Hall].
    split; [exact Hlen|]. intros i s Hi.
    destruct (Hall i s Hi) as (r & Hr & Hm & Hd).
    exists r. split; [exact Hr|]. split; [exact Hm|].
    intros Hv. now rewrite Hd, Hv. }
  split; [reflexivity|]. split; [exact Hrad|].
  split; eexists; (split; [|exact Hscaled]); [reflexivity | exact Hrad].
Qed.

End ClimbFallback.

(** Airspeed alone, with the usual constants (32.2 ft/s2, 1.68781 ft/s per
    knot). *)
Lemma AccelerationForwardsForFlightPhases_airspeed_only_witness :
  AccelerationForwardsForFlightPhases_derive Fixtures.stand_in_rate_of_change
    Fixtures.no_repair (322 # 10) (168781 # 100000) 1 0
    None (Some (Fixtures.channel "Airspeed" [80; 90; 100]%Q))
  = Ok (ma_div_scalar
          (ma_mul_scalar (Fixtures.plain [80; 90; 100]%Q) (168781 # 100000))
          (322 # 10)).
Proof.
  refine (proj1 (proj2 (proj2 (proj2
    (AccelerationForwardsForFlightPhases_airspeed_only
       Fixtures.stand_in_rate_of_change Fixtures.no_repair
       (322 # 10) (168781 # 100000) 1 0 ["Airspeed"%string]
       (Fixtures.channel "Airspeed" [80; 90; 100]%Q) _))))).
  intros H. discriminate H.
Defined.

End CapabilityFacts.

(** ** Facts about the array model *)

Module NumpyFacts.
Import Numpy.

Lemma slice_length {A} (a : list A) (b e : nat) :
  length (slice a b e) = (e - b) `min` (length a - b).
Proof. unfold slice. now rewrite length_take, length_drop. Qed.

Lemma slice_lookup {A} (a : list A) (b e i : nat) :
  i < e - b -> slice a b e !! i = a !! (b + i).
Proof. intros Hi. unfold slice. now rewrite lookup_take_lt, lookup_drop. Qed.

Lemma slice_lookup_ge {A} (a : list A) (b e i : nat) :
  e - b <= i -> slice a b e !! i = None.
Proof. intros Hi. unfold slice. now apply lookup_take_ge. Qed.

Lemma slice_in_range {A} (a : list A) (b e : nat) :
  e <= length a -> length (slice a b e) = e - b.
Proof. intros H. rewrite slice_length. lia. Qed.

Lemma getitem_Ok (a : masked_array) (i : nat) (s : sample) :
  getitem a i = Ok s <-> a !! i = Some s.
Proof. unfold getitem. destruct (a !! i); split; congruence. Qed.

Lemma getitem_out_of_bounds (a : masked_array) (i : nat) :
  length a <= i -> getitem a i = Raise IndexError.
Proof. intros H. unfold getitem. now rewrite lookup_ge_None_2. Qed.

Lemma ma_zeros_lookup (n i : nat) :
  i < n -> ma_zeros n !! i = Some (Sample 0 false).
Proof. intros H. unfold ma_zeros. now apply lookup_replicate_2. Qed.

Lemma broadcast2_same_length {A B C} (f : A -> B -> C) (xs : list A) (ys : list B) :
  length xs = length ys -> broadcast2 f xs ys = Ok (zip_with f xs ys).
Proof. intros H. unfold broadcast2. now rewrite decide_True. Qed.

(** A slice assignment whose value has the length of the target slice
    overwrites exactly the positions of the slice. *)
Lemma setslice_exact (out v : masked_array) (b e : nat) :
  length v = length (slice out b e) ->
  setslice out b e v = Ok (list_inserts b v out).
Proof. intros H. unfold setslice. now rewrite decide_True. Qed.

Lemma ma_sub_scalar_lookup (a : masked_array) (s : sample) (i : nat) :
  ma_sub_scalar a s !! i = (fun x => sample_sub x s) <$> a !! i.
Proof. unfold ma_sub_scalar. apply list_lookup_fmap. Qed.

Lemma ma_sub_scalar_length (a : masked_array) (s : sample) :
  length (ma_sub_scalar a s) = length a.
Proof. unfold ma_sub_scalar. apply length_map. Qed.

(** The difference of two valid samples is valid and is their difference. *)
Lemma sample_sub_unmasked (x y : sample) :
  mask x = false -> mask y = false ->
  sample_sub x y = Sample (data x - data y) false.
Proof. intros Hx Hy. unfold sample_sub, ma_op. now rewrite Hx, Hy. Qed.

Lemma sample_sub_mask (x y : sample) : mask (sample_sub x y) = mask x || mask y.
Proof. reflexivity. Qed.

End NumpyFacts.

(** ** The changeover of RateOfClimb *)

Module RateOfClimbFacts.
Import Numpy DerivedParameters Vocabulary NumpyFacts.

Lemma max_min_is_clamp (x : Q) : (Qmax (Qmin x 1) 0 == clamp x 0 1)%Q.
Proof.
  unfold clamp.
  destruct (Qlt_le_dec x 0) as [Hlt|Hge].
  - rewrite Q.max_r; [reflexivity|].
    rewrite Q.min_l; lra.
  - destruct (Qlt_le_dec 1 x) as [Hgt|Hle].
    + rewrite Q.min_r by lra. rewrite Q.max_l; lra.
    + rewrite Q.min_l by lra. rewrite Q.max_l; lra.
Qed.

Lemma spec_ratio_low (h : Q) : (h <= 50)%Q -> (spec_ratio h == 0)%Q.
Proof.
  intros H. unfold spec_ratio, clamp.
  destruct (Qlt_le_dec ((h - 50) / 50) 0) as [_|Hge]; [reflexivity|].
  assert ((h - 50) / 50 == 0)%Q as E.
  { apply Qle_antisym; [|exact Hge].
    apply Qle_shift_div_r; lra. }
  destruct (Qlt_le_dec 1 ((h - 50) / 50)); lra.
Qed.

Lemma spec_ratio_high (h : Q) : (100 <= h)%Q -> (spec_ratio h == 1)%Q.
Proof.
  intros H. unfold spec_ratio, clamp.
  assert (1 <= (h - 50) / 50)%Q as Hge by (apply Qle_shift_div_l; lra).
  destruct (Qlt_le_dec ((h - 50) / 50) 0) as [Hlt|_]; [lra|].
  destruct (Qlt_le_dec 1 ((h - 50) / 50)); lra.
Qed.

Lemma spec_ratio_between (h : Q) :
  (50 <= h <= 100)%Q -> (spec_ratio h == (h - 50) / 50)%Q.
Proof.
  intros [Hlo Hhi]. unfold spec_ratio, clamp.
  assert (0 <= (h - 50) / 50)%Q by (apply Qle_shift_div_l; lra).
  assert ((h - 50) / 50 <= 1)%Q by (apply Qle_shift_div_r; lra).
  destruct (Qlt_le_dec ((h - 50) / 50) 0); [lra|].
  destruct (Qlt_le_dec 1 ((h - 50) / 50)); lra.
Qed.

Lemma std_rad_ratio_lookup (alt_rad : parameter) (i : nat) :
  RateOfClimb_std_rad_ratio alt_rad !! i
  = (fun s => Qmax (Qmin ((data s - 50) / 50) 1) 0) <$> array alt_rad !! i.
Proof.
  unfold RateOfClimb_std_rad_ratio, np_maximum, np_minimum, nd_div_scalar,
    nd_sub_scalar, ma_data.
  rewrite !list_lookup_fmap. now destruct (array alt_rad !! i).
Qed.

Lemma std_rad_ratio_length (alt_rad : parameter) :
  length (RateOfClimb_std_rad_ratio alt_rad) = length (array alt_rad).
Proof.
  unfold RateOfClimb_std_rad_ratio, np_maximum, np_minimum, nd_div_scalar,
    nd_sub_scalar, ma_data.
  now rewrite !length_map.
Qed.

(** The ratio looks at the stored numbers only: two radio-altitude arrays
    with the same numbers and different masks give the same ratio. *)
Lemma std_rad_ratio_ignores_mask (p q : parameter) :
  ma_data (array p) = ma_data (array q) ->
  RateOfClimb_std_rad_ratio p = RateOfClimb_std_rad_ratio q.
Proof. intros H. unfold RateOfClimb_std_rad_ratio. now rewrite H. Qed.

Lemma blend_sample_mask (tc : Q) (b w : sample) (r : Q) :
  ~ (tc == 0)%Q -> mask (blend_sample tc b w r) = mask b || mask w.
Proof.
  intros Htc. unfold blend_sample, sample_div, sample_add, sample_mul, ma_op, scalar.
  simpl. destruct (Qeq_bool tc 0) eqn:E; [apply Qeq_bool_iff in E; contradiction|].
  now rewrite !orb_false_r.
Qed.

Lemma blend_sample_data (tc : Q) (b w : sample) (r : Q) :
  ~ (tc == 0)%Q -> mask b = false -> mask w = false ->
  (data (blend_sample tc b w r) == (data b * r + data w * (1 - r)) / tc)%Q.
Proof.
  intros Htc Hb Hw.
  unfold blend_sample, sample_div, sample_add, sample_mul, ma_op, scalar.
  simpl. rewrite Hb, Hw. simpl.
  destruct (Qeq_bool tc 0) eqn:E; [apply Qeq_bool_iff in E; contradiction|].
  reflexivity.
Qed.


Section Changeover.

Variable first_order_washout : masked_array -> Q -> Q -> option sample -> masked_array.
Variable first_order_lag : masked_array -> Q -> Q -> Q -> masked_array.
Variable rate_of_change : parameter -> nat -> masked_array.
Variables AZ_WASHOUT_TC GRAVITY RATE_OF_CLIMB_LAG_TC : Q.

Local Abbreviation roc_derive :=
  (RateOfClimb_derive first_order_washout first_order_lag rate_of_change
     AZ_WASHOUT_TC GRAVITY RATE_OF_CLIMB_LAG_TC).
Local Abbreviation roc_altitude_of :=
  (RateOfClimb_roc_altitude first_order_washout RATE_OF_CLIMB_LAG_TC).
Local Abbreviation washout a az :=
  (first_order_washout a RATE_OF_CLIMB_LAG_TC (hz az) None).

(** With filters that keep the length of their input and aligned altitude
    arrays, no elementwise operation of the primary path can fail, and the
    blend is computed position by position. *)
Lemma roc_altitude_pointwise (az alt_std alt_rad : parameter) :
  length (washout (array alt_std) az) = length (array alt_rad) ->
  length (washout (array alt_rad) az) = length (array alt_rad) ->
  roc_altitude_of az alt_std alt_rad
  = Ok (zip_with (fun bw r => blend_sample RATE_OF_CLIMB_LAG_TC bw.1 bw.2 r)
          (zip (washout (array alt_std) az) (washout (array alt_rad) az))
          (RateOfClimb_std_rad_ratio alt_rad)).
Proof.
  intros Hb Hw. unfold RateOfClimb_roc_altitude, ma_mul_nd, ma_add.
  pose proof (std_rad_ratio_length alt_rad) as Hr.
  rewrite !broadcast2_same_length
    by (unfold nd_rsub_scalar; rewrite ?length_map; congruence).
  simpl.
  rewrite broadcast2_same_length
    by (unfold nd_rsub_scalar; rewrite !length_zip_with, ?length_map; lia).
  simpl. f_equal.
  apply list_eq. intros i.
  unfold ma_div_scalar, nd_rsub_scalar.
  rewrite list_lookup_fmap, !lookup_zip_with, list_lookup_fmap.
  destruct (washout (array alt_std) az !! i) as [b|]; simpl; [|reflexivity].
  destruct (RateOfClimb_std_rad_ratio alt_rad !! i) as [r|]; simpl;
    destruct (washout (array alt_rad) az !! i) as [w|]; simpl; reflexivity.
Qed.

(** C1: on the primary path of [RateOfClimb.derive], at every sample the
    changeover ratio is clamp((radio altitude - 50) / 50, 0, 1) of the stored
    radio-altitude number: 0 up to 50 ft, 1 from 100 ft on, linear between.
    The blended altitude rate there is masked when either washout output is,
    and otherwise is (baro_washout * ratio + radio_washout * (1 - ratio))
    divided by the washout time constant: the radio-altitude term alone when
    the ratio is 0 and the barometric term alone when the ratio is 1. *)
Theorem RateOfClimb_changeover (az alt_std alt_rad : parameter) :
  ~ (RATE_OF_CLIMB_LAG_TC == 0)%Q ->
  (forall a tc h init, length (first_order_washout a tc h init) = length a) ->
  length (array alt_std) = length (array alt_rad) ->
  exists roc_altitude,
    roc_altitude_of az alt_std alt_rad = Ok roc_altitude
    /\ roc_derive (Some az) alt_std (Some alt_rad)
       = (az0 ← getitem (array az) 0;
          total ← ma_add roc_altitude
                    (first_order_lag
                       (first_order_washout (array az) AZ_WASHOUT_TC (hz az) (Some az0))
                       RATE_OF_CLIMB_LAG_TC (hz az) (GRAVITY * RATE_OF_CLIMB_LAG_TC));
          Ok (ma_mul_scalar total 60))
    /\ length roc_altitude = length (array alt_rad)
    /\ length (RateOfClimb_std_rad_ratio alt_rad) = length (array alt_rad)
    /\ forall i s, array alt_rad !! i = Some s ->
       exists ratio b w y,
         RateOfClimb_std_rad_ratio alt_rad !! i = Some ratio
         /\ washout (array alt_std) az !! i = Some b
         /\ washout (array alt_rad) az !! i = Some w
         /\ roc_altitude !! i = Some y
         /\ (ratio == spec_ratio (data s))%Q
         /\ ((data s <= 50)%Q -> (ratio == 0)%Q)
         /\ ((100 <= data s)%Q -> (ratio == 1)%Q)
         /\ ((50 <= data s <= 100)%Q -> (ratio == (data s - 50) / 50)%Q)
         /\ mask y = mask b || mask w
         /\ (mask y = false ->
             (data y == (data b * ratio + data w * (1 - ratio))
                        / RATE_OF_CLIMB_LAG_TC)%Q
             /\ ((data s <= 50)%Q -> (data y == data w / RATE_OF_CLIMB_LAG_TC)%Q)
             /\ ((100 <= data s)%Q -> (data y == data b / RATE_OF_CLIMB_LAG_TC)%Q)).
Proof.
  intros Htc Hlen Halign.
  assert (length (washout (array alt_std) az) = length (array alt_rad)) as Hb
    by (rewrite Hlen; exact Halign).
  assert (length (washout (array alt_rad) az) = length (array alt_rad)) as Hw
    by apply Hlen.
  eexists. split; [apply roc_altitude_pointwise; assumption|].
  split; [unfold RateOfClimb_derive; now rewrite roc_altitude_pointwise|].
  pose proof (std_rad_ratio_length alt_rad) as Hr.
  split; [rewrite length_zip_with, length_zip_with; lia|].
  split; [exact Hr|].
  intros i s Hs.
  assert (i < length (array alt_rad)) as Hi by (eapply lookup_lt_Some; eauto).
  destruct (lookup_lt_is_Some_2 (washout (array alt_std) az) i) as [b Hbi]; [lia|].
  destruct (lookup_lt_is_Some_2 (washout (array alt_rad) az) i) as [w Hwi]; [lia|].
  pose proof (std_rad_ratio_lookup alt_rad i) as Hri. rewrite Hs in Hri. simpl in Hri.
  set (ratio := Qmax (Qmin ((data s - 50) / 50) 1) 0) in *.
  assert (ratio == spec_ratio (data s))%Q as Hspec by apply max_min_is_clamp.
  exists ratio, b, w, (blend_sample RATE_OF_CLIMB_LAG_TC b w ratio).
  split; [exact Hri|]. split; [exact Hbi|]. split; [exact Hwi|].
  split.
  { rewrite !lookup_zip_with, Hbi, Hwi, Hri. reflexivity. }
  split; [exact Hspec|].
  split; [intros H; rewrite Hspec; now apply spec_ratio_low|].
  split; [intros H; rewrite Hspec; now apply spec_ratio_high|].
  split; [intros H; rewrite Hspec; now apply spec_ratio_between|].
  split; [now apply blend_sample_mask|].
  rewrite blend_sample_mask by exact Htc.
  intros Hm. apply orb_false_iff in Hm as [Hmb Hmw].
  pose proof (blend_sample_data RATE_OF_CLIMB_LAG_TC b w ratio Htc Hmb Hmw) as Hd.
  split; [exact Hd|]. split; intros H; rewrite Hd.
  - rewrite Hspec, (spec_ratio_low _ H). field. exact Htc.
  - rewrite Hspec, (spec_ratio_high _ H). field. exact Htc.
Qed.


End Changeover.

(** Two samples, one at 30 ft and one at 120 ft of radio altitude, with a
    time constant of 6 s. *)
Lemma RateOfClimb_changeover_witness :
  exists roc_altitude,
    RateOfClimb_roc_altitude Fixtures.stand_in_filter 6
      (Fixtures.channel "Acceleration Vertical" [0; 0]%Q)
      (Fixtures.channel "Altitude STD" [1000; 1012]%Q)
      (Fixtures.channel "Altitude Radio" [30; 120]%Q)
    = Ok roc_altitude /\ length roc_altitude = 2.
Proof.
  destruct (RateOfClimb_changeover Fixtures.stand_in_filter
    (fun a _ _ _ => a) Fixtures.stand_in_rate_of_change 60 (322 # 10) 6
    (Fixtures.channel "Acceleration Vertical" [0; 0]%Q)
    (Fixtures.channel "Altitude STD" [1000; 1012]%Q)
    (Fixtures.channel "Altitude Radio" [30; 120]%Q))
    as (roc & Hroc & _ & Hlen & _).
  - intros H. discriminate H.
  - reflexivity.
  - reflexivity.
  - exists roc. split; [exact Hroc | exact Hlen].
Defined.


End RateOfClimbFacts.

(** ** Loops over the spans of a flight phase *)

Module SpanFacts.
Import Numpy DerivedParameters Vocabulary NumpyFacts.

Section SpanLoop.

(** A loop body that, on a span it accepts, rewrites the positions of the
    span with values that do not depend on the output so far, and leaves
    every other position alone. *)
Variable body : masked_array -> span -> result masked_array.
Variable n : nat.
Variable valid : span -> Prop.
Variable value : span -> nat -> sample.

Hypothesis body_spec : forall out sp,
  length out = n -> valid sp ->
  exists out', body out sp = Ok out' /\ length out' = n
    /\ forall i, out' !! i = if decide (in_span sp i) then Some (value sp i) else out !! i.

Lemma for_each_spans (spans : list span) : forall out,
  length out = n -> Forall valid spans ->
  exists out', for_each body out spans = Ok out' /\ length out' = n
    /\ (forall i, (forall sp, sp ∈ spans -> ~ in_span sp i) -> out' !! i = out !! i)
    /\ (ForallOrdPairs disjoint spans ->
        forall sp i, sp ∈ spans -> in_span sp i -> out' !! i = Some (value sp i)).
Proof.
  induction spans as [|sp0 spans IH]; intros out Hlen Hvalid.
  - exists out. repeat split; try assumption.
    intros _ sp i Hin. now apply elem_of_nil in Hin.
  - apply Forall_cons in Hvalid as [Hv0 Hvalid].
    destruct (body_spec out sp0 Hlen Hv0) as (out1 & Hbody & Hlen1 & Hat).
    destruct (IH out1 Hlen1 Hvalid) as (out' & Hloop & Hlen' & Hout & Hin).
    exists out'. simpl. rewrite Hbody. simpl.
    split; [exact Hloop|]. split; [exact Hlen'|]. split.
    + intros i Hnone. rewrite Hout.
      * rewrite Hat. rewrite decide_False; [reflexivity|].
        apply Hnone. left.
      * intros sp Hsp. apply Hnone. now right.
    + intros Hdis sp i Hsp Hi. inversion Hdis as [|? ? Hd0 Hdrest]; subst.
      apply elem_of_cons in Hsp as [->|Hsp].
      * rewrite Hout.
        -- rewrite Hat. now rewrite decide_True.
        -- intros sp Hsp Hi'. rewrite Forall_forall in Hd0.
           specialize (Hd0 sp Hsp). unfold disjoint, in_span in *. lia.
      * now apply Hin.
Qed.

End SpanLoop.

(** *** The position found by argmax *)

Lemma filled_lt_irrefl (x : option Q) : filled_lt x x = false.
Proof.
  destruct x as [q|]; [|reflexivity]. simpl.
  assert (Qle_bool q q = true) as -> by (apply Qle_bool_iff; apply Qle_refl).
  reflexivity.
Qed.

Lemma filled_lt_trans (x y z : option Q) :
  filled_lt x y = true -> filled_lt y z = true -> filled_lt x z = true.
Proof.
  destruct x as [a|], y as [b|], z as [c|]; simpl; try discriminate; try reflexivity.
  rewrite !negb_true_iff. intros H1 H2.
  destruct (Qle_bool c a) eqn:E; [|reflexivity].
  apply Qle_bool_iff in E.
  assert (~ (b <= a)%Q) by (intros H; apply Qle_bool_iff in H; congruence).
  assert (~ (c <= b)%Q) by (intros H'; apply Qle_bool_iff in H'; congruence).
  lra.
Qed.

Lemma filled_le_lt_trans (x y z : option Q) :
  filled_lt y x = false -> filled_lt y z = true -> filled_lt x z = true.
Proof.
  destruct x as [a|], y as [b|], z as [c|]; simpl; try discriminate; try reflexivity.
  rewrite negb_false_iff, !negb_true_iff. intros H1 H2.
  apply Qle_bool_iff in H1.
  destruct (Qle_bool c a) eqn:E; [|reflexivity].
  apply Qle_bool_iff in E.
  assert (~ (c <= b)%Q) by (intros H'; apply Qle_bool_iff in H'; congruence).
  lra.
Qed.

(** The search keeps the best position so far unless a strictly greater
    value turns up; what it returns is in range, no value of the array is
    greater than the value it stands for, and every value before it in the
    array is strictly smaller. *)
Lemma argmax_from_spec (a : masked_array) : forall best_i best i,
  best_i < i ->
  let p := argmax_from best_i best i a in
  (p = best_i
   /\ forall j x, a !! j = Some x -> filled_lt best (filled_min x) = false)
  \/ (exists j x, p = i + j /\ a !! j = Some x
      /\ filled_lt best (filled_min x) = true
      /\ (forall k y, a !! k = Some y -> filled_le (filled_min y) (filled_min x))
      /\ (forall k y, k < j -> a !! k = Some y ->
          filled_lt (filled_min y) (filled_min x) = true)).
Proof.
  induction a as [|s a IH]; intros best_i best i Hlt p.
  - left. split; [reflexivity|]. intros j x Hj. now rewrite lookup_nil in Hj.
  - subst p. simpl. destruct (filled_lt best (filled_min s)) eqn:E.
    + destruct (IH i (filled_min s) (S i) (Nat.lt_succ_diag_r i)) as [[Hp Hall]|Hex].
      * right. exists 0, s. rewrite Hp, Nat.add_0_r.
        split; [reflexivity|]. split; [reflexivity|]. split; [exact E|]. split.
        -- intros [|k] y Hk; simpl in Hk.
           ++ injection Hk as <-. apply filled_lt_irrefl.
           ++ now apply (Hall k).
        -- intros k y Hk. lia.
      * destruct Hex as (j & x & Hp & Hj & Hbetter & Hmax & Hfirst).
        right. exists (S j), x. rewrite Hp.
        split; [lia|]. split; [exact Hj|].
        split; [eapply filled_lt_trans; eassumption|]. split.
        -- intros [|k] y Hk; simpl in Hk.
           ++ injection Hk as <-. unfold filled_le.
              destruct (filled_lt (filled_min x) (filled_min s)) eqn:E2; [|reflexivity].
              pose proof (filled_lt_trans _ _ _ Hbetter E2) as H.
              now rewrite filled_lt_irrefl in H.
           ++ now apply (Hmax k).
        -- intros [|k] y Hk Hy; simpl in Hy.
           ++ injection Hy as <-. exact Hbetter.
           ++ apply (Hfirst k); [lia|exact Hy].
    + destruct (IH best_i best (S i) (Nat.lt_lt_succ_r _ _ Hlt)) as [[Hp Hall]|Hex].
      * left. split; [exact Hp|].
        intros [|j] x Hj; simpl in Hj.
        -- injection Hj as <-. exact E.
        -- now apply (Hall j).
      * destruct Hex as (j & x & Hp & Hj & Hbetter & Hmax & Hfirst).
        right. exists (S j), x. rewrite Hp.
        split; [lia|]. split; [exact Hj|]. split; [exact Hbetter|]. split.
        -- intros [|k] y Hk; simpl in Hk.
           ++ injection Hk as <-. unfold filled_le.
              destruct (filled_lt (filled_min x) (filled_min s)) eqn:E2; [|reflexivity].
              pose proof (filled_lt_trans _ _ _ Hbetter E2) as H. congruence.
           ++ now apply (Hmax k).
        -- intros [|k] y Hk Hy; simpl in Hy.
           ++ injection Hy as <-. eapply filled_le_lt_trans; eassumption.
           ++ apply (Hfirst k); [lia|exact Hy].
Qed.

Lemma ma_argmax_Ok (a : masked_array) :
  a <> [] -> ma_argmax a = Ok (argmax_of a).
Proof. destruct a; [congruence|reflexivity]. Qed.

(** [argmax_of] is the first position of the greatest filled value. *)
Lemma argmax_of_spec (a : masked_array) :
  a <> [] ->
  exists x, a !! argmax_of a = Some x
    /\ (forall k y, a !! k = Some y -> filled_le (filled_min y) (filled_min x))
    /\ (forall k y, k < argmax_of a -> a !! k = Some y ->
        filled_lt (filled_min y) (filled_min x) = true).
Proof.
  destruct a as [|s a]; [congruence|]. intros _. simpl.
  destruct (argmax_from_spec a 0 (filled_min s) 1 Nat.lt_0_1) as [[Hp Hall]|Hex].
  - rewrite Hp. exists s. split; [reflexivity|]. split.
    + intros [|k] y Hk; simpl in Hk.
      * injection Hk as <-. apply filled_lt_irrefl.
      * now apply (Hall k).
    + intros k y Hk. lia.
  - destruct Hex as (j & x & Hp & Hj & Hbetter & Hmax & Hfirst).
    rewrite Hp. exists x. split; [exact Hj|]. split.
    + intros [|k] y Hk; simpl in Hk.
      * injection Hk as <-. unfold filled_le.
        destruct (filled_lt (filled_min x) (filled_min s)) eqn:E2; [|reflexivity].
        pose proof (filled_lt_trans _ _ _ Hbetter E2) as H.
        now rewrite filled_lt_irrefl in H.
      * now apply (Hmax k).
    + intros [|k] y Hk Hy; simpl in Hy.
      * injection Hy as <-. exact Hbetter.
      * apply (Hfirst k); [lia|exact Hy].
Qed.

Lemma argmax_of_lt_length (a : masked_array) :
  a <> [] -> argmax_of a < length a.
Proof.
  intros Ha. destruct (argmax_of_spec a Ha) as (x & Hx & _).
  eapply lookup_lt_Some; eassumption.
Qed.

End SpanFacts.

(** ** AltitudeAALForFlightPhases *)

Module AltitudeAALFacts.
Import Numpy DerivedParameters Vocabulary NumpyFacts SpanFacts.

Lemma getitem_total (a : masked_array) (i : nat) :
  i < length a -> getitem a i = Ok (a !!! i).
Proof.
  intros Hi. apply getitem_Ok. now apply list_lookup_lookup_total_lt.
Qed.

Lemma slice_nonempty (a : masked_array) (b e : nat) :
  b < e -> b < length a -> slice a b e <> [].
Proof.
  intros Hbe Hb Hnil. apply (f_equal length) in Hnil.
  rewrite slice_length in Hnil. simpl in Hnil. lia.
Qed.

Lemma setslice_length (out v out' : masked_array) (b e : nat) :
  setslice out b e v = Ok out' -> length out' = length out.
Proof.
  unfold setslice. destruct (decide _).
  - intros [= <-]. apply length_inserts.
  - destruct v as [|s [|? ?]]; try discriminate.
    intros [= <-]. apply length_inserts.
Qed.

(** On a span that is not empty and whose [stop] is an index of the array,
    one turn of the loop succeeds and is two overwrites. *)
Lemma aal_span_Ok (a out : masked_array) (sp : span) :
  length out = length a -> start sp < stop sp -> stop sp < length a ->
  let peak := argmax_of (slice a (start sp) (stop sp)) in
  AltitudeAALForFlightPhases_span a out sp
  = Ok (list_inserts (start sp + peak)
          (ma_sub_scalar (slice a (start sp + peak) (stop sp)) (a !!! stop sp))
          (list_inserts (start sp)
             (ma_sub_scalar (slice a (start sp) (start sp + peak)) (a !!! start sp))
             out)).
Proof.
  intros Hlen Hne Hstop peak. unfold AltitudeAALForFlightPhases_span.
  assert (slice a (start sp) (stop sp) <> []) as Hview
    by (apply slice_nonempty; lia).
  pose proof (argmax_of_lt_length _ Hview) as Hpeak. fold peak in Hpeak.
  rewrite slice_in_range in Hpeak by lia.
  rewrite (ma_argmax_Ok _ Hview). fold peak. simpl.
  rewrite (getitem_total a (start sp)) by lia. simpl.
  rewrite setslice_exact
    by (rewrite ma_sub_scalar_length, !slice_in_range; lia).
  simpl. rewrite (getitem_total a (stop sp)) by lia. simpl.
  rewrite setslice_exact
    by (rewrite ma_sub_scalar_length, !slice_in_range;
        rewrite ?length_inserts; lia).
  reflexivity.
Qed.

Lemma aal_span_value (a out : masked_array) (sp : span) :
  length out = length a -> start sp < stop sp -> stop sp < length a ->
  exists out', AltitudeAALForFlightPhases_span a out sp = Ok out'
    /\ length out' = length a
    /\ forall i, out' !! i
         = if decide (in_span sp i) then Some (aal_value a sp i) else out !! i.
Proof.
  intros Hlen Hne Hstop. eexists. split; [now apply aal_span_Ok|].
  assert (slice a (start sp) (stop sp) <> []) as Hview
    by (apply slice_nonempty; lia).
  pose proof (argmax_of_lt_length _ Hview) as Hpeak.
  rewrite slice_in_range in Hpeak by lia.
  set (peak := argmax_of (slice a (start sp) (stop sp))) in *.
  split; [rewrite !length_inserts; exact Hlen|].
  intros i. unfold in_span, aal_value. fold peak.
  destruct (decide (start sp <= i < stop sp)) as [Hin|Hout].
  - destruct (decide (i < start sp + peak)) as [Hbefore|Hafter].
    + rewrite list_lookup_inserts_lt by lia.
      rewrite list_lookup_inserts
        by (rewrite ?ma_sub_scalar_length, ?slice_in_range; lia).
      rewrite ma_sub_scalar_lookup, slice_lookup by lia.
      replace (start sp + (i - start sp)) with i by lia.
      rewrite list_lookup_lookup_total_lt by lia. reflexivity.
    + rewrite list_lookup_inserts
        by (rewrite ?ma_sub_scalar_length, ?slice_in_range, ?length_inserts; lia).
      rewrite ma_sub_scalar_lookup, slice_lookup by lia.
      replace (start sp + peak + (i - (start sp + peak))) with i by lia.
      rewrite list_lookup_lookup_total_lt by lia. reflexivity.
  - destruct (decide (i < start sp)) as [Hlow|Hhigh].
    + rewrite !list_lookup_inserts_lt by lia. reflexivity.
    + rewrite !list_lookup_inserts_ge
        by (rewrite ma_sub_scalar_length, slice_in_range; lia).
      reflexivity.
Qed.

(** A span that stops at the end of the array makes the turn of the loop
    raise, whatever the output holds. *)
Lemma span_to_end_raises (a out : masked_array) (sp : span) :
  length out = length a -> stop sp = length a ->
  is_raise (AltitudeAALForFlightPhases_span a out sp)
  /\ (start sp < stop sp -> AltitudeAALForFlightPhases_span a out sp = Raise IndexError).
Proof.
  intros Hlen Hstop. unfold AltitudeAALForFlightPhases_span.
  destruct (decide (start sp < stop sp)) as [Hne|Hempty].
  - assert (slice a (start sp) (stop sp) <> []) as Hview
      by (apply slice_nonempty; lia).
    pose proof (argmax_of_lt_length _ Hview) as Hpeak.
    rewrite slice_in_range in Hpeak by lia.
    rewrite (ma_argmax_Ok _ Hview). simpl.
    rewrite (getitem_total a (start sp)) by lia. simpl.
    rewrite setslice_exact
      by (rewrite ma_sub_scalar_length, !slice_in_range; lia).
    simpl. rewrite (getitem_out_of_bounds a (stop sp)) by lia. simpl. split; [exact I|reflexivity].
  - assert (slice a (start sp) (stop sp) = []) as ->.
    { apply length_zero_iff_nil. rewrite slice_length. lia. }
    simpl. split; [exact I|lia].
Qed.

Lemma span_keeps_length (a out out' : masked_array) (sp : span) :
  AltitudeAALForFlightPhases_span a out sp = Ok out' -> length out' = length out.
Proof.
  unfold AltitudeAALForFlightPhases_span.
  destruct (ma_argmax _) as [peak|]; simpl; [|discriminate].
  destruct (getitem a (start sp)) as [s0|]; simpl; [|discriminate].
  destruct (setslice out _ _ _) as [out1|] eqn:E1; simpl; [|discriminate].
  destruct (getitem a (stop sp)) as [s1|]; simpl; [|discriminate].
  intros E2. apply setslice_length in E1, E2. congruence.
Qed.

Lemma loop_to_end_raises (a : masked_array) (fast : list span) (sp : span) :
  sp ∈ fast -> stop sp = length a ->
  forall out, length out = length a ->
  is_raise (for_each (AltitudeAALForFlightPhases_span a) out fast).
Proof.
  intros Hin Hstop. induction fast as [|sp0 fast IH]; intros out Hlen.
  - now apply elem_of_nil in Hin.
  - simpl. destruct (AltitudeAALForFlightPhases_span a out sp0) as [out1|e] eqn:E;
      simpl; [|exact I].
    apply elem_of_cons in Hin as [<-|Hin].
    + destruct (span_to_end_raises a out sp Hlen Hstop) as [Hraise _].
      now rewrite E in Hraise.
    + apply IH; [exact Hin|]. apply span_keeps_length in E. congruence.
Qed.

Section Derive.

Variable repair_mask_inplace : masked_array -> masked_array.

Local Abbreviation derive := (AltitudeAALForFlightPhases_derive repair_mask_inplace).

(** What the node computes when every span is non-empty and stops at an
    index of the array: zero outside the spans; in a span, before the first
    position of the greatest altitude of the span, the altitude less the
    altitude at the start, and from that position on the altitude less the
    altitude at index [stop].  The subtraction is that of masked arrays. *)
Lemma derive_values (alt_std : parameter) (fast : list span) :
  let a := repair_mask_inplace (array alt_std) in
  length a = length (array alt_std) ->
  Forall (fun sp => start sp < stop sp < length a) fast ->
  exists out, derive alt_std fast = Ok out
    /\ length out = length a
    /\ (forall i, i < length a -> (forall sp, sp ∈ fast -> ~ in_span sp i) ->
        out !! i = Some (Sample 0 false))
    /\ (ForallOrdPairs disjoint fast ->
        forall sp i x, sp ∈ fast -> in_span sp i -> a !! i = Some x ->
        exists peak at_peak at_begin at_end,
          ma_argmax (slice a (start sp) (stop sp)) = Ok peak
          /\ a !! (start sp + peak) = Some at_peak
          /\ (forall k y, in_span sp k -> a !! k = Some y ->
              filled_le (filled_min y) (filled_min at_peak))
          /\ (forall k y, start sp <= k < start sp + peak -> a !! k = Some y ->
              filled_lt (filled_min y) (filled_min at_peak) = true)
          /\ a !! start sp = Some at_begin
          /\ a !! stop sp = Some at_end
          /\ out !! i = Some (if decide (i < start sp + peak)
                              then sample_sub x at_begin
                              else sample_sub x at_end)).
Proof.
  intros a Hrepair Hvalid. unfold AltitudeAALForFlightPhases_derive. fold a.
  destruct (for_each_spans (AltitudeAALForFlightPhases_span a) (length a)
              (fun sp => start sp < stop sp < length a) (aal_value a)) with
    (spans := fast) (out := ma_zeros (length (array alt_std)))
    as (out & Hloop & Hlen & Hout & Hin).
  - intros out sp Hlen [Hne Hstop]. now apply aal_span_value.
  - unfold ma_zeros. rewrite length_replicate. congruence.
  - exact Hvalid.
  - exists out. split; [exact Hloop|]. split; [exact Hlen|]. split.
    + intros i Hi Hnone. rewrite Hout by exact Hnone.
      apply ma_zeros_lookup. congruence.
    + intros Hdis sp i x Hsp Hi Hx.
      rewrite Forall_forall in Hvalid. destruct (Hvalid sp Hsp) as [Hne Hstop].
      assert (slice a (start sp) (stop sp) <> []) as Hview
        by (apply slice_nonempty; lia).
      destruct (argmax_of_spec _ Hview) as (at_peak & Hpeak & Hmax & Hfirst).
      pose proof (argmax_of_lt_length _ Hview) as Hlt.
      rewrite slice_in_range in Hlt by lia.
      set (peak := argmax_of (slice a (start sp) (stop sp))) in *.
      rewrite slice_lookup in Hpeak by lia.
      exists peak, at_peak, (a !!! start sp), (a !!! stop sp).
      split; [now apply ma_argmax_Ok|]. split; [exact Hpeak|]. split.
      { intros k y [Hk1 Hk2] Hy. apply (Hmax (k - start sp)).
        rewrite slice_lookup by lia. now replace (start sp + (k - start sp)) with k by lia. }
      split.
      { intros k y [Hk1 Hk2] Hy. apply (Hfirst (k - start sp)); [lia|].
        rewrite slice_lookup by lia. now replace (start sp + (k - start sp)) with k by lia. }
      split; [apply list_lookup_lookup_total_lt; lia|].
      split; [apply list_lookup_lookup_total_lt; lia|].
      rewrite (Hin Hdis sp i Hsp Hi). unfold aal_value. fold peak.
      rewrite (list_lookup_total_correct _ _ _ Hx). reflexivity.
Qed.

(** C9: the subtraction after the peak reads the altitude at index [stop],
    the exclusive end of the span.  For a span that stops at the length of
    the array this index is out of bounds: the read raises [IndexError], the
    derivation raises whenever such a span is among the spans, and raises
    [IndexError] when the span is the only one and is not empty. *)
Theorem AltitudeAAL_stop_at_length_raises
    (alt_std : parameter) (fast : list span) (sp : span) :
  let a := repair_mask_inplace (array alt_std) in
  length a = length (array alt_std) ->
  sp ∈ fast -> stop sp = length a ->
  getitem a (stop sp) = Raise IndexError
  /\ is_raise (derive alt_std fast)
  /\ (start sp < stop sp -> derive alt_std [sp] = Raise IndexError).
Proof.
  intros a Hrepair Hsp Hstop.
  assert (length (ma_zeros (length (array alt_std))) = length a) as Hzeros
    by (unfold ma_zeros; rewrite length_replicate; congruence).
  split; [apply getitem_out_of_bounds; lia|]. split.
  - unfold AltitudeAALForFlightPhases_derive. fold a.
    now apply (loop_to_end_raises a fast sp).
  - intros Hne. unfold AltitudeAALForFlightPhases_derive. fold a. simpl.
    destruct (span_to_end_raises a _ sp Hzeros Hstop) as [_ Hraise].
    now rewrite (Hraise Hne).
Qed.

End Derive.

(** A recording of three samples that is fast from its first to its last
    sample. *)
Lemma AltitudeAAL_stop_at_length_raises_witness :
  AltitudeAALForFlightPhases_derive Fixtures.no_repair
    (Fixtures.channel "Altitude STD" [0; 100; 50]%Q) [Span 0 3]
  = Raise IndexError.
Proof.
  refine (proj2 (proj2 (AltitudeAAL_stop_at_length_raises Fixtures.no_repair
    (Fixtures.channel "Altitude STD" [0; 100; 50]%Q) [Span 0 3] (Span 0 3) _ _ _)) _).
  - reflexivity.
  - apply list_elem_of_here.
  - reflexivity.
  - simpl. lia.
Defined.

(** C3: a span that runs to the last sample of the recording gets no output
    at all, the derivation raises [IndexError]; the same altitudes followed by
    one more sample give the values the claim describes. *)
Theorem AltitudeAAL_span_to_last_sample :
  AltitudeAALForFlightPhases_derive Fixtures.no_repair
    (Fixtures.channel "Altitude STD" [0; 100; 50]%Q) [Span 0 3]
  = Raise IndexError
  /\ AltitudeAALForFlightPhases_derive Fixtures.no_repair
       (Fixtures.channel "Altitude STD" [0; 100; 50; 10]%Q) [Span 0 3]
     = Ok (Fixtures.plain [0; 90; 40; 0]%Q).
Proof. split; reflexivity. Qed.

End AltitudeAALFacts.

(** ** ClimbForFlightPhases *)

Module ClimbFacts.
Import Numpy DerivedParameters Vocabulary NumpyFacts SpanFacts.

Lemma scalar_lt_unmasked (x y : sample) :
  mask x = false -> mask y = false ->
  (scalar_lt x y = true <-> (data x < data y)%Q).
Proof.
  intros Hx Hy. unfold scalar_lt. rewrite Hx, Hy. simpl.
  rewrite negb_true_iff. split.
  - intros H. apply Qnot_le_lt. intros Hle. apply Qle_bool_iff in Hle. congruence.
  - intros H. destruct (Qle_bool (data y) (data x)) eqn:E; [|reflexivity].
    apply Qle_bool_iff in E. lra.
Qed.

Lemma view_setitem_Ok (out : masked_array) (ax : span) (i : nat) (v : sample) :
  i < length (slice out (start ax) (stop ax)) -> mask v = false ->
  view_setitem out ax i v = Ok (<[start ax + i := v]> out).
Proof.
  intros Hi Hv. unfold view_setitem. rewrite decide_True by exact Hi.
  now rewrite Hv.
Qed.

Lemma length_climb_from (l : masked_array) : forall prev c,
  length (climb_from prev c l) = length l.
Proof.
  induction l as [|x l IH]; intros prev c; simpl; [reflexivity|].
  destruct (scalar_lt x prev); simpl; now rewrite IH.
Qed.

Lemma length_climb_of (view : masked_array) : length (climb_of view) = length view.
Proof. destruct view; simpl; [reflexivity|]. now rewrite length_climb_from. Qed.

Section Loop.

Variable a : masked_array.
Variable ax : span.

Local Abbreviation view := (slice a (start ax) (stop ax)).

Hypothesis stop_in_range : stop ax <= length a.
Hypothesis view_unmasked : Forall unmasked view.

(** The turns [count = k, ..., k + m - 1] of the inner loop, started with
    floor [c]: the floor they end with and the positions they store. *)
Lemma inner_loop (m : nat) : forall k c out prev,
  length out = length a -> mask c = false ->
  1 <= k -> k + m <= length view -> view !! (k - 1) = Some prev ->
  for_each (ClimbForFlightPhases_step a ax) (c, out) (seq k m)
  = Ok (floor_after prev c (take m (drop k view)),
        list_inserts (start ax + k) (climb_from prev c (take m (drop k view))) out).
Proof.
  induction m as [|m IH]; intros k c out prev Hlen Hc Hk Hkm Hprev.
  - reflexivity.
  - destruct (lookup_lt_is_Some_2 view k) as [x Hx]; [lia|].
    assert (mask x = false) as Hmx.
    { rewrite Forall_lookup in view_unmasked. exact (view_unmasked k x Hx). }
    rewrite (drop_S _ _ _ Hx). simpl.
    rewrite (proj2 (getitem_Ok view k x) Hx). simpl.
    rewrite (proj2 (getitem_Ok view (k - 1) prev) Hprev). simpl.
    assert (k < length (slice out (start ax) (stop ax))) as Hin.
    { rewrite slice_length, Hlen, <- slice_length. lia. }
    assert (S k - 1 = k) as Hpred by lia.
    destruct (scalar_lt x prev).
    + rewrite view_setitem_Ok by (exact Hin || reflexivity). simpl.
      rewrite (IH (S k) x _ x); try (rewrite ?length_insert; assumption || lia).
      * f_equal. f_equal.
        rewrite list_insert_inserts_lt by lia.
        now replace (start ax + S k) with (S (start ax + k)) by lia.
      * now rewrite Hpred.
    + assert (mask (sample_sub x c) = false) as Hsub
        by (rewrite sample_sub_mask, Hmx, Hc; reflexivity).
      rewrite view_setitem_Ok by assumption. simpl.
      rewrite (IH (S k) c _ x); try (rewrite ?length_insert; assumption || lia).
      * f_equal. f_equal.
        rewrite list_insert_inserts_lt by lia.
        now replace (start ax + S k) with (S (start ax + k)) by lia.
      * now rewrite Hpred.
Qed.

Hypothesis not_empty : start ax < stop ax.

Lemma view_cons : exists x0, a !! start ax = Some x0 /\ mask x0 = false
  /\ view = x0 :: drop 1 view /\ length (drop 1 view) = stop ax - start ax - 1.
Proof.
  destruct (lookup_lt_is_Some_2 view 0) as [x0 Hx0];
    [rewrite slice_in_range; lia|].
  exists x0. split.
  { rewrite slice_lookup in Hx0 by lia. now rewrite Nat.add_0_r in Hx0. }
  split.
  { rewrite Forall_lookup in view_unmasked. exact (view_unmasked 0 x0 Hx0). }
  split; [now apply drop_S in Hx0|].
  rewrite length_drop, slice_in_range; lia.
Qed.

(** One turn of the outer loop stores [climb_of view] over the span. *)
Lemma climb_span_Ok (out : masked_array) :
  length out = length a ->
  ClimbForFlightPhases_span a out ax = Ok (list_inserts (start ax) (climb_of view) out).
Proof.
  intros Hlen. destruct view_cons as (x0 & Hx0 & Hm0 & Hview & Hrest).
  unfold ClimbForFlightPhases_span.
  assert (view !! 0 = Some x0) as H0 by (rewrite Hview; reflexivity).
  rewrite (proj2 (getitem_Ok view 0 x0) H0). simpl.
  rewrite view_setitem_Ok;
    [|rewrite slice_length, Hlen, <- slice_length, slice_in_range; lia|reflexivity].
  simpl.
  rewrite (inner_loop _ 1 x0 _ x0);
    try (rewrite ?length_insert; assumption || lia).
  - simpl. f_equal. rewrite <- Hrest, firstn_all.
    rewrite Hview at 2. simpl.
    rewrite list_insert_inserts_lt by lia.
    replace (start ax + 1) with (S (start ax)) by lia.
    now replace (start ax + 0) with (start ax) by lia.
  - rewrite slice_in_range; lia.
Qed.

End Loop.

(** *** The floor and the stored values, position by position *)

Lemma floor_after_take_S (l : masked_array) : forall prev c k x p,
  l !! k = Some x -> (prev :: l) !! k = Some p ->
  floor_after prev c (take (S k) l)
  = if scalar_lt x p then x else floor_after prev c (take k l).
Proof.
  induction l as [|y l IH]; intros prev c k x p Hx Hp; [now rewrite lookup_nil in Hx|].
  destruct k as [|k]; simpl in Hx, Hp.
  - injection Hx as ->. injection Hp as ->. simpl. rewrite ?take_0.
    now destruct (scalar_lt x p).
  - change (take (S (S k)) (y :: l)) with (y :: take (S k) l).
    change (take (S k) (y :: l)) with (y :: take k l). simpl.
    destruct (scalar_lt y prev); now apply IH.
Qed.

Lemma climb_from_lookup (l : masked_array) : forall prev c k x p,
  l !! k = Some x -> (prev :: l) !! k = Some p ->
  climb_from prev c l !! k
  = Some (if scalar_lt x p then scalar 0
          else sample_sub x (floor_after prev c (take k l))).
Proof.
  induction l as [|y l IH]; intros prev c k x p Hx Hp; [now rewrite lookup_nil in Hx|].
  destruct k as [|k]; simpl in Hx, Hp.
  - injection Hx as ->. injection Hp as ->. simpl.
    now destruct (scalar_lt x p).
  - simpl. destruct (scalar_lt y prev); simpl; now apply IH.
Qed.

(** The floor never exceeds the sample the loop has just seen. *)
Lemma floor_after_le (l : masked_array) : forall prev c k p,
  Forall unmasked l -> mask prev = false -> mask c = false ->
  (data c <= data prev)%Q -> (prev :: l) !! k = Some p ->
  (data (floor_after prev c (take k l)) <= data p)%Q.
Proof.
  induction l as [|y l IH]; intros prev c k p Hl Hprev Hc Hle Hp.
  - destruct k as [|k]; simpl in Hp; [|now rewrite lookup_nil in Hp].
    injection Hp as <-. now rewrite ?take_nil.
  - destruct k as [|k]; simpl in Hp.
    + injection Hp as <-. now rewrite ?take_0.
    + apply Forall_cons in Hl as [Hy Hl].
      change (take (S k) (y :: l)) with (y :: take k l). simpl.
      destruct (scalar_lt y prev) eqn:E.
      * apply IH; try assumption. apply Qle_refl.
      * apply IH; try assumption.
        assert (~ (data y < data prev)%Q) as Hn.
        { intros H. apply (scalar_lt_unmasked y prev Hy Hprev) in H. congruence. }
        lra.
Qed.

Lemma running_floor_cons (view rest : masked_array) (x0 : sample) (k : nat) :
  view = x0 :: rest -> running_floor view k = floor_after x0 x0 (take k rest).
Proof. now intros ->. Qed.

Lemma climb_of_cons (view rest : masked_array) (x0 : sample) :
  view = x0 :: rest -> climb_of view = scalar 0 :: climb_from x0 x0 rest.
Proof. now intros ->. Qed.

(** Position [k + 1] of a span, with [x] the sample there and [p] the sample
    before it. *)
Lemma climb_of_step (view : masked_array) (k : nat) (x p : sample) :
  view !! S k = Some x -> view !! k = Some p ->
  climb_of view !! S k
  = Some (if scalar_lt x p then scalar 0 else sample_sub x (running_floor view k))
  /\ running_floor view (S k) = (if scalar_lt x p then x else running_floor view k).
Proof.
  destruct view as [|x0 rest]; [intros H; now rewrite lookup_nil in H|].
  intros Hx Hp. simpl in Hx. simpl. split.
  - now apply climb_from_lookup.
  - now apply floor_after_take_S.
Qed.

Lemma running_floor_le (view : masked_array) (k : nat) (p : sample) :
  Forall unmasked view -> view !! k = Some p ->
  (data (running_floor view k) <= data p)%Q.
Proof.
  destruct view as [|x0 rest]; [intros _ H; now rewrite lookup_nil in H|].
  intros Hv Hp. apply Forall_cons in Hv as [H0 Hv]. simpl.
  apply floor_after_le; try assumption. apply Qle_refl.
Qed.

Lemma climb_span_value (a out : masked_array) (sp : span) :
  length out = length a -> climb_valid a sp ->
  exists out', ClimbForFlightPhases_span a out sp = Ok out'
    /\ length out' = length a
    /\ forall i, out' !! i
         = if decide (in_span sp i) then Some (climb_value a sp i) else out !! i.
Proof.
  intros Hlen [[Hne Hstop] Hun]. eexists.
  split; [apply climb_span_Ok; assumption|].
  split; [now rewrite length_inserts|].
  intros i. unfold in_span, climb_value.
  pose proof (length_climb_of (slice a (start sp) (stop sp))) as Hc.
  rewrite slice_in_range in Hc by lia.
  destruct (decide (start sp <= i < stop sp)) as [Hin|Hout].
  - rewrite list_lookup_inserts by lia.
    apply list_lookup_lookup_total_lt. lia.
  - destruct (decide (i < start sp)).
    + now rewrite list_lookup_inserts_lt by lia.
    + now rewrite list_lookup_inserts_ge by lia.
Qed.

Section Derive.

Variable repair_mask_inplace : masked_array -> masked_array.

Local Abbreviation derive := (ClimbForFlightPhases_derive repair_mask_inplace).

(** X21: on spans without masked samples [ClimbForFlightPhases] tracks a
    floor, the variable [curr_alt]: it starts at the first altitude of the
    span and changes only at a sample lower than the one before, where it
    becomes that sample.  The node stores the altitude less the floor, which
    is zero at every such descent and never negative, and zero outside the
    spans.  The altitudes 100, 110, 90, 95, 120 in one span give
    0, 10, 0, 5, 30. *)
Theorem ClimbForFlightPhases_floor (alt_std : parameter) (airs : list span) :
  let a := repair_mask_inplace (array alt_std) in
  length a = length (array alt_std) ->
  Forall (climb_valid a) airs ->
  ForallOrdPairs disjoint airs ->
  exists out, derive alt_std airs = Ok out
    /\ length out = length a
    /\ (forall i, i < length a -> (forall sp, sp ∈ airs -> ~ in_span sp i) ->
        out !! i = Some (Sample 0 false))
    /\ (forall sp, sp ∈ airs ->
        let floor := running_floor (slice a (start sp) (stop sp)) in
        a !! start sp = Some (floor 0)
        /\ out !! start sp = Some (scalar 0)
        /\ (forall k out0, k < stop sp - start sp -> length out0 = length a ->
            exists o, for_each (ClimbForFlightPhases_step a sp) (floor 0, out0) (seq 1 k)
                      = Ok (floor k, o))
        /\ (forall k x p, start sp + S k < stop sp ->
            a !! (start sp + S k) = Some x -> a !! (start sp + k) = Some p ->
            exists y, out !! (start sp + S k) = Some y /\ mask y = false
              /\ (floor (S k) <> floor k -> (data x < data p)%Q)
              /\ ((data (floor (S k)) < data (floor k))%Q -> (data x < data p)%Q)
              /\ ((data x < data p)%Q -> floor (S k) = x /\ y = scalar 0)
              /\ ((data p <= data x)%Q -> floor (S k) = floor k)
              /\ (data y == data x - data (floor (S k)))%Q
              /\ (data (floor (S k)) <= data x)%Q
              /\ (0 <= data y)%Q))
    /\ (a = Fixtures.plain [100; 110; 90; 95; 120]%Q -> airs = [Span 0 5] ->
        out = Fixtures.plain [0; 10; 0; 5; 30]%Q).
Proof.
  intros a Hrepair Hvalid Hdis. unfold ClimbForFlightPhases_derive. fold a.
  destruct (for_each_spans (ClimbForFlightPhases_span a) (length a)
              (climb_valid a) (climb_value a)) with
    (spans := airs) (out := ma_zeros (length (array alt_std)))
    as (out & Hloop & Hlen & Hout & Hin).
  { intros out sp Hlen Hv. now apply climb_span_value. }
  { unfold ma_zeros. rewrite length_replicate. congruence. }
  { exact Hvalid. }
  exists out. split; [exact Hloop|]. split; [exact Hlen|]. split.
  { intros i Hi Hnone. rewrite Hout by exact Hnone.
    apply ma_zeros_lookup. congruence. }
  split.
  - intros sp Hsp.
    set (floor := running_floor (slice a (start sp) (stop sp))).
    rewrite Forall_forall in Hvalid. destruct (Hvalid sp Hsp) as [[Hne Hstop] Hun].
    destruct (view_cons a sp Hstop Hun Hne) as (x0 & Hx0 & Hm0 & Hview & Hrest).
    set (view := slice a (start sp) (stop sp)) in *.
    assert (floor 0 = x0) as Hf0
      by (unfold floor; rewrite (running_floor_cons _ _ _ 0 Hview); now rewrite take_0).
    split; [now rewrite Hf0|]. split.
    { rewrite (Hin Hdis sp (start sp) Hsp) by (unfold in_span; lia).
      unfold climb_value. fold view. rewrite (climb_of_cons _ _ _ Hview).
      now rewrite Nat.sub_diag. }
    split.
    { intros k out0 Hk Hlen0. eexists. rewrite Hf0.
      rewrite (inner_loop a sp Hstop Hun k 1 x0 out0 x0); try assumption; try lia.
      - unfold floor. rewrite (running_floor_cons _ _ _ k Hview). reflexivity.
      - fold view. unfold view at 1. rewrite slice_in_range; lia.
      - fold view. rewrite Hview. reflexivity. }
    intros k x p Hk Hx Hp.
    assert (view !! S k = Some x) as Hvx by (unfold view; now rewrite slice_lookup by lia).
    assert (view !! k = Some p) as Hvp by (unfold view; now rewrite slice_lookup by lia).
    assert (mask x = false) as Hmx
      by (rewrite Forall_lookup in Hun; exact (Hun (S k) x Hvx)).
    assert (mask p = false) as Hmp
      by (rewrite Forall_lookup in Hun; exact (Hun k p Hvp)).
    destruct (climb_of_step view k x p Hvx Hvp) as [Hclimb Hfloor].
    pose proof (running_floor_le view k p Hun Hvp) as Hle. fold floor in Hle, Hfloor.
    pose proof (running_floor_le view (S k) x Hun Hvx) as Hle'. fold floor in Hle'.
    pose proof (scalar_lt_unmasked x p Hmx Hmp) as Hlt.
    assert (mask (floor k) = false) as Hmf.
    { clear -Hun Hview Hk Hrest. unfold floor.
      rewrite (running_floor_cons _ _ _ k Hview).
      assert (forall l prev c, Forall unmasked l -> mask c = false ->
                mask (floor_after prev c l) = false) as Hgen.
      { induction l as [|z l IH]; intros prev c Hl Hc; [exact Hc|].
        apply Forall_cons in Hl as [Hz Hl]. simpl.
        destruct (scalar_lt z prev); now apply IH. }
      rewrite Hview in Hun. apply Forall_cons in Hun as [H0 Hun].
      apply Hgen; [|exact H0]. now apply Forall_take. }
    rewrite (Hin Hdis sp (start sp + S k) Hsp) by (unfold in_span; lia).
    unfold climb_value. fold view.
    replace (start sp + S k - start sp) with (S k) by lia.
    rewrite (list_lookup_total_correct _ _ _ Hclimb).
    eexists. split; [reflexivity|].
    destruct (scalar_lt x p) eqn:E.
    + assert (data x < data p)%Q as Hdesc by now apply Hlt.
      split; [reflexivity|]. split; [intros _; exact Hdesc|].
      split; [intros _; exact Hdesc|].
      split; [intros _; split; [exact Hfloor|reflexivity]|].
      split; [intros H; lra|].
      rewrite Hfloor. simpl. split; [lra|]. split; lra.
    + assert (~ (data x < data p)%Q) as Hasc by (intros H; apply Hlt in H; congruence).
      rewrite sample_sub_unmasked by assumption. simpl.
      split; [reflexivity|]. split; [intros H; now rewrite Hfloor in H|].
      split; [intros H; rewrite Hfloor in H; lra|].
      split; [intros H; contradiction|]. split; [intros _; exact Hfloor|].
      fold floor. rewrite Hfloor. split; [reflexivity|]. split; lra.
  - intros Ha ->. rewrite Ha in Hloop.
    assert (length (array alt_std) = 5) as Hl5 by (rewrite <- Hrepair, Ha; reflexivity).
    rewrite Hl5 in Hloop. vm_compute in Hloop. injection Hloop as <-. reflexivity.
Qed.

End Derive.

(** The altitudes 100, 110, 90, 95, 120 in one span. *)
Lemma ClimbForFlightPhases_floor_witness :
  ClimbForFlightPhases_derive Fixtures.no_repair
    (Fixtures.channel "Altitude STD" [100; 110; 90; 95; 120]%Q) [Span 0 5]
  = Ok (Fixtures.plain [0; 10; 0; 5; 30]%Q).
Proof.
  destruct (ClimbForFlightPhases_floor Fixtures.no_repair
    (Fixtures.channel "Altitude STD" [100; 110; 90; 95; 120]%Q) [Span 0 5])
    as (out & Hout & _ & _ & _ & Hex).
  - reflexivity.
  - constructor; [|constructor]. split; [simpl; lia|].
    repeat constructor.
  - constructor; constructor.
  - rewrite Hout. f_equal. now apply Hex.
Defined.

(** *** Masked samples inside a span *)

Lemma for_each_app {A S} (body : S -> A -> result S) (l1 l2 : list A) : forall s,
  for_each body s (l1 ++ l2) = (s' ← for_each body s l1; for_each body s' l2).
Proof.
  induction l1 as [|x l1 IH]; intros s; simpl; [reflexivity|].
  destruct (body s x) as [s'|e]; simpl; [apply IH|reflexivity].
Qed.

Section MaskedRun.

Variable a : masked_array.
Variable ax : span.

Local Abbreviation view := (slice a (start ax) (stop ax)).

(** A turn whose comparison involves a masked sample takes the [else]
    branch, a masked comparison being false as a condition: the floor is
    kept, and the difference to the floor is stored unless it is masked. *)
Lemma step_masked_comparison (c : sample) (out : masked_array) (count : nat)
    (x y : sample) :
  view !! count = Some x -> view !! (count - 1) = Some y ->
  mask x = true \/ mask y = true ->
  count < length (slice out (start ax) (stop ax)) ->
  ClimbForFlightPhases_step a ax (c, out) count
  = Ok (c, if mask x || mask c then out
           else <[start ax + count := sample_sub x c]> out).
Proof.
  intros Hx Hy Hm Hin. unfold ClimbForFlightPhases_step.
  rewrite (proj2 (getitem_Ok view count x) Hx). simpl.
  rewrite (proj2 (getitem_Ok view (count - 1) y) Hy). simpl.
  assert (scalar_lt x y = false) as ->.
  { unfold scalar_lt. destruct Hm as [H|H]; rewrite H; [reflexivity|].
    now destruct (mask x). }
  unfold view_setitem. rewrite decide_True by exact Hin.
  rewrite sample_sub_mask. reflexivity.
Qed.

(** A run of masked samples leaves the floor and the output as they are. *)
Lemma masked_run (m : nat) : forall k c out,
  k + m <= length (slice out (start ax) (stop ax)) ->
  is_Some (view !! (k - 1)) ->
  (forall j, k <= j < k + m -> exists x, view !! j = Some x /\ mask x = true) ->
  for_each (ClimbForFlightPhases_step a ax) (c, out) (seq k m) = Ok (c, out).
Proof.
  induction m as [|m IH]; intros k c out Hkm [y Hy] Hrun; [reflexivity|].
  destruct (Hrun k) as (x & Hx & Hmx); [lia|].
  cbn [for_each seq].
  rewrite (step_masked_comparison c out k x y Hx Hy (or_introl Hmx)) by lia.
  rewrite Hmx. simpl. apply IH; [lia| |].
  - replace (S k - 1) with k by lia. eauto.
  - intros j Hj. apply Hrun. lia.
Qed.

End MaskedRun.

Section MaskedDescent.

Variable repair_mask_inplace : masked_array -> masked_array.

Local Abbreviation derive := (ClimbForFlightPhases_derive repair_mask_inplace).

(** C4: the node does not yield zero during every descent.  When the span
    holds the altitude [h0], then a run of masked samples that the repair has
    left masked, then the altitude [h1], the comparison of the last sample
    with the masked one before it is masked, which is false as a condition:
    the sample is handled as a climb and [h1 - h0] is stored, a negative
    number when the aircraft has descended.  The floor is left at [h0]. *)
Theorem ClimbForFlightPhases_descent_after_masked_run
    (alt_std : parameter) (n : nat) (h0 h1 d : Q) :
  let a := repair_mask_inplace (array alt_std) in
  0 < n ->
  length (array alt_std) = length a ->
  a = scalar h0 :: replicate n (Sample d true) ++ [scalar h1] ->
  exists out, derive alt_std [Span 0 (length a)] = Ok out
    /\ out = <[S n := scalar (h1 - h0)]> (ma_zeros (length a))
    /\ a !! S n = Some (scalar h1)
    /\ out !! S n = Some (scalar (h1 - h0))
    /\ ((h1 < h0)%Q -> forall y, out !! S n = Some y -> (data y < 0)%Q).
Proof.
  intros a Hn Hlen Ha.
  assert (length a = S (S n)) as HL
    by (rewrite Ha; simpl; rewrite length_app, length_replicate; simpl; lia).
  assert (a !! 0 = Some (scalar h0)) as H0 by (rewrite Ha; reflexivity).
  assert (forall j, 1 <= j < S n -> a !! j = Some (Sample d true)) as Hmid.
  { intros j Hj. rewrite Ha. destruct j as [|j]; [lia|]. simpl.
    rewrite lookup_app_l by (rewrite length_replicate; lia).
    apply lookup_replicate_2. lia. }
  assert (a !! S n = Some (scalar h1)) as Hlast.
  { rewrite Ha. simpl. rewrite lookup_app_r by (rewrite length_replicate; lia).
    rewrite length_replicate, Nat.sub_diag. reflexivity. }
  remember (Span 0 (length a)) as ax eqn:Eax.
  assert (start ax = 0) as Hstart by now rewrite Eax.
  assert (stop ax = S (S n)) as Hstop by (rewrite Eax; exact HL).
  assert (forall j, j < S (S n) -> slice a (start ax) (stop ax) !! j = a !! j) as Hview.
  { intros j Hj. rewrite slice_lookup by lia. now rewrite Hstart. }
  remember (ma_zeros (length a)) as zeros eqn:Ezeros.
  assert (length zeros = S (S n)) as Hzeros
    by (rewrite Ezeros; unfold ma_zeros; now rewrite length_replicate).
  assert (length (slice zeros (start ax) (stop ax)) = S (S n)) as Hzl
    by (rewrite slice_length; lia).
  assert (ClimbForFlightPhases_span a zeros ax
          = Ok (<[S n := scalar (h1 - h0)]> zeros)) as Hspan.
  { unfold ClimbForFlightPhases_span.
    rewrite (proj2 (getitem_Ok _ 0 (scalar h0))) by (rewrite Hview by lia; exact H0).
    rewrite view_setitem_Ok by (rewrite ?Hzl; reflexivity || lia).
    assert (<[start ax + 0 := scalar 0]> zeros = zeros) as ->.
    { apply list_insert_id. rewrite Hstart, Ezeros. apply ma_zeros_lookup. lia. }
    replace (stop ax - start ax - 1) with (S n) by lia.
    cbn [mbind result_bind].
    rewrite seq_S, for_each_app, masked_run.
    - cbn [for_each mbind result_bind].
      rewrite (step_masked_comparison a ax (scalar h0) zeros (1 + n)
                 (scalar h1) (Sample d true)).
      + rewrite Hstart. reflexivity.
      + rewrite Hview by lia. exact Hlast.
      + replace (1 + n - 1) with n by lia. rewrite Hview by lia. apply Hmid. lia.
      + right. reflexivity.
      + rewrite Hzl. lia.
    - rewrite Hzl. lia.
    - exists (scalar h0). rewrite Hview by lia. exact H0.
    - intros j Hj. exists (Sample d true). rewrite Hview by lia.
      split; [apply Hmid; lia|reflexivity]. }
  unfold ClimbForFlightPhases_derive. fold a. rewrite Hlen, <- Ezeros.
  cbn [for_each]. rewrite Hspan. cbn [mbind result_bind].
  eexists. split; [reflexivity|]. split; [reflexivity|]. split; [exact Hlast|].
  assert (<[S n := scalar (h1 - h0)]> zeros !! S n = Some (scalar (h1 - h0))) as Hout.
  { apply list_lookup_insert_eq. lia. }
  split; [exact Hout|].
  intros Hdesc y Hy. rewrite Hout in Hy. injection Hy as <-. simpl. lra.
Qed.

End MaskedDescent.

(** The altitudes 100, a masked sample, 90. *)
Lemma ClimbForFlightPhases_descent_after_masked_run_witness :
  ClimbForFlightPhases_derive Fixtures.no_repair
    (mkParameter "Altitude STD" [Sample 100 false; Sample 95 true; Sample 90 false] 1 0)
    [Span 0 3]
  = Ok [Sample 0 false; Sample 0 false; Sample (-10) false].
Proof.
  destruct (ClimbForFlightPhases_descent_after_masked_run Fixtures.no_repair
    (mkParameter "Altitude STD" [Sample 100 false; Sample 95 true; Sample 90 false] 1 0)
    1 100 90 95) as (out & Hout & -> & _).
  - lia.
  - reflexivity.
  - reflexivity.
  - exact Hout.
Defined.

End ClimbFacts.

(** * Further properties of the nodes *)

(** ** AltitudeAALForFlightPhases, beyond the end of the recording *)

Module AltitudeAALMore.
Import Numpy DerivedParameters Vocabulary NumpyFacts SpanFacts AltitudeAALFacts.

Lemma for_each_keeps_length {A} (body : masked_array -> A -> result masked_array) :
  (forall out x out', body out x = Ok out' -> length out' = length out) ->
  forall l out out', for_each body out l = Ok out' -> length out' = length out.
Proof.
  intros Hbody. induction l as [|x l IH]; intros out out'; simpl.
  - now intros [= <-].
  - destruct (body out x) as [out1|e] eqn:E; simpl; [|discriminate].
    intros H. apply IH in H. apply Hbody in E. congruence.
Qed.

Lemma span_empty_raises (a out : masked_array) (sp : span) :
  stop sp <= start sp \/ length a <= start sp ->
  AltitudeAALForFlightPhases_span a out sp = Raise ValueError.
Proof.
  intros H. unfold AltitudeAALForFlightPhases_span.
  assert (slice a (start sp) (stop sp) = []) as ->; [|reflexivity].
  apply length_zero_iff_nil. rewrite slice_length. lia.
Qed.

Lemma span_beyond_raises (a out : masked_array) (sp : span) :
  length out = length a -> start sp < stop sp -> start sp < length a ->
  length a <= stop sp ->
  AltitudeAALForFlightPhases_span a out sp = Raise IndexError.
Proof.
  intros Hlen Hne Hstart Hstop. unfold AltitudeAALForFlightPhases_span.
  assert (slice a (start sp) (stop sp) <> []) as Hview
    by (apply slice_nonempty; lia).
  pose proof (argmax_of_lt_length _ Hview) as Hpeak.
  rewrite slice_length in Hpeak.
  rewrite (ma_argmax_Ok _ Hview). simpl.
  rewrite (getitem_total a (start sp)) by lia. simpl.
  rewrite setslice_exact
    by (rewrite ma_sub_scalar_length, !slice_length; lia).
  simpl. rewrite (getitem_out_of_bounds a (stop sp)) by lia. reflexivity.
Qed.

Section Derive.

Variable repair_mask_inplace : masked_array -> masked_array.

Local Abbreviation derive := (AltitudeAALForFlightPhases_derive repair_mask_inplace).

(** X1: with spans that are not empty, end before the last sample and do not
    overlap, the node stores zero outside the spans and, in a span, the
    altitude less the altitude at the start of the span before the first
    position of the greatest altitude, and the altitude less the altitude at
    index [stop] from there on. *)
Theorem AltitudeAAL_values (alt_std : parameter) (fast : list span) :
  let a := repair_mask_inplace (array alt_std) in
  length a = length (array alt_std) ->
  Forall (fun sp => start sp < stop sp < length a) fast ->
  ForallOrdPairs disjoint fast ->
  exists out, derive alt_std fast = Ok out
    /\ length out = length a
    /\ (forall i, i < length a -> (forall sp, sp ∈ fast -> ~ in_span sp i) ->
        out !! i = Some (Sample 0 false))
    /\ (forall sp i x, sp ∈ fast -> in_span sp i -> a !! i = Some x ->
        exists peak at_peak at_begin at_end,
          ma_argmax (slice a (start sp) (stop sp)) = Ok peak
          /\ a !! (start sp + peak) = Some at_peak
          /\ (forall k y, in_span sp k -> a !! k = Some y ->
              filled_le (filled_min y) (filled_min at_peak))
          /\ (forall k y, start sp <= k < start sp + peak -> a !! k = Some y ->
              filled_lt (filled_min y) (filled_min at_peak) = true)
          /\ a !! start sp = Some at_begin
          /\ a !! stop sp = Some at_end
          /\ out !! i = Some (if decide (i < start sp + peak)
                             then sample_sub x at_begin
                             else sample_sub x at_end)).
Proof.
  intros a Hrepair Hvalid Hdis.
  destruct (derive_values repair_mask_inplace alt_std fast Hrepair Hvalid)
    as (out & Hout & Hlen & Hzero & Hin).
  exists out. split; [exact Hout|]. split; [exact Hlen|].
  split; [exact Hzero|]. exact (Hin Hdis).
Qed.

(** X2: whatever the spans, an output that is produced has the length of the
    altitude array, and without spans it is zero everywhere. *)
Theorem AltitudeAAL_length (alt_std : parameter) (fast : list span) (out : masked_array) :
  derive alt_std fast = Ok out ->
  length out = length (array alt_std)
  /\ derive alt_std [] = Ok (ma_zeros (length (array alt_std)))
  /\ (fast = [] -> forall i, i < length (array alt_std) ->
      out !! i = Some (Sample 0 false)).
Proof.
  intros H. split; [|split; [reflexivity|]].
  - unfold AltitudeAALForFlightPhases_derive in H.
    apply for_each_keeps_length in H.
    + rewrite H. unfold ma_zeros. apply length_replicate.
    + intros o sp o' E. now apply span_keeps_length in E.
  - intros -> i Hi. injection H as <-. now apply ma_zeros_lookup.
Qed.

(** X3: the first span decides when it is unusable: an empty span (or one
    that starts beyond the array) makes the derivation raise [ValueError],
    the argmax of nothing, and a span that is not empty and whose [stop] is
    not an index of the array makes it raise [IndexError]. *)
Theorem AltitudeAAL_unusable_span
    (alt_std : parameter) (sp : span) (rest : list span) :
  let a := repair_mask_inplace (array alt_std) in
  length a = length (array alt_std) ->
  (stop sp <= start sp \/ length a <= start sp ->
   derive alt_std (sp :: rest) = Raise ValueError)
  /\ (start sp < stop sp -> start sp < length a -> length a <= stop sp ->
      derive alt_std (sp :: rest) = Raise IndexError).
Proof.
  intros a Hrepair. unfold AltitudeAALForFlightPhases_derive. fold a. split.
  - intros H. simpl. now rewrite span_empty_raises.
  - intros Hne Hstart Hstop. simpl. rewrite span_beyond_raises; try assumption.
    + reflexivity.
    + unfold ma_zeros. rewrite length_replicate. congruence.
Qed.

End Derive.

Lemma AltitudeAAL_values_witness :
  exists out,
    AltitudeAALForFlightPhases_derive Fixtures.no_repair
      (Fixtures.channel "Altitude STD" [0; 100; 50; 10; 10; 60; 20]%Q)
      [Span 0 3; Span 4 6] = Ok out
    /\ length out = 7.
Proof.
  destruct (AltitudeAAL_values Fixtures.no_repair
    (Fixtures.channel "Altitude STD" [0; 100; 50; 10; 10; 60; 20]%Q)
    [Span 0 3; Span 4 6]) as (out & Hout & Hlen & _).
  - reflexivity.
  - repeat constructor; simpl; lia.
  - constructor; [|repeat constructor]. constructor; [|constructor].
    left. simpl. lia.
  - exists out. split; [exact Hout | exact Hlen].
Defined.

Lemma AltitudeAAL_length_witness :
  length (Fixtures.plain [0; 90; 40; 0]%Q) = 4.
Proof.
  exact (proj1 (AltitudeAAL_length Fixtures.no_repair
    (Fixtures.channel "Altitude STD" [0; 100; 50; 10]%Q) [Span 0 3]
    (Fixtures.plain [0; 90; 40; 0]%Q) eq_refl)).
Defined.

Lemma AltitudeAAL_unusable_span_witness :
  AltitudeAALForFlightPhases_derive Fixtures.no_repair
    (Fixtures.channel "Altitude STD" [0; 100; 50]%Q) [Span 2 2; Span 0 1]
  = Raise ValueError.
Proof.
  apply (proj1 (AltitudeAAL_unusable_span Fixtures.no_repair
    (Fixtures.channel "Altitude STD" [0; 100; 50]%Q) (Span 2 2) [Span 0 1] eq_refl)).
  left. simpl. lia.
Defined.

End AltitudeAALMore.

(** ** ClimbForFlightPhases on any input *)

Module ClimbMore.
Import Numpy DerivedParameters MoreNodes Vocabulary NumpyFacts SpanFacts ClimbFacts.

Lemma for_each_invariant {A S} (I : S -> Prop) (body : S -> A -> result S) :
  (forall s x s', I s -> body s x = Ok s' -> I s') ->
  forall l s s', I s -> for_each body s l = Ok s' -> I s'.
Proof.
  intros Hbody. induction l as [|x l IH]; intros s s' Hs; simpl.
  - now intros [= <-].
  - destruct (body s x) as [s1|e] eqn:E; simpl; [|discriminate].
    apply IH. eapply Hbody; eassumption.
Qed.

Lemma view_setitem_clean (n : nat) (out out' : masked_array) (ax : span) (i : nat) (v : sample) :
  clean n out -> view_setitem out ax i v = Ok out' -> clean n out'.
Proof.
  intros [Hlen Hun]. unfold view_setitem.
  destruct (decide _); [|discriminate]. intros [= <-].
  destruct (mask v) eqn:E; [now split|]. split.
  - now rewrite length_insert.
  - now apply Forall_insert.
Qed.

Lemma step_clean (n : nat) (a : masked_array) (ax : span) (st st' : sample * masked_array) (k : nat) :
  clean n (snd st) -> ClimbForFlightPhases_step a ax st k = Ok st' -> clean n (snd st').
Proof.
  destruct st as [c out]. simpl. intros Hc. unfold ClimbForFlightPhases_step.
  destruct (getitem _ k) as [x|]; simpl; [|discriminate].
  destruct (getitem _ (k - 1)) as [y|]; simpl; [|discriminate].
  destruct (scalar_lt x y).
  - destruct (view_setitem out ax k (scalar 0)) as [o|] eqn:E; simpl; [|discriminate].
    intros [= <-]. simpl. eapply view_setitem_clean; eassumption.
  - destruct (view_setitem out ax k (sample_sub x c)) as [o|] eqn:E; simpl; [|discriminate].
    intros [= <-]. simpl. eapply view_setitem_clean; eassumption.
Qed.

Lemma span_clean (n : nat) (a out out' : masked_array) (ax : span) :
  clean n out -> ClimbForFlightPhases_span a out ax = Ok out' -> clean n out'.
Proof.
  intros Hc. unfold ClimbForFlightPhases_span.
  destruct (getitem _ 0) as [c|]; simpl; [|discriminate].
  destruct (view_setitem out ax 0 (scalar 0)) as [o|] eqn:E; simpl; [|discriminate].
  destruct (for_each _ _ _) as [st|] eqn:Eloop; simpl; [|discriminate].
  intros [= <-].
  apply (for_each_invariant (fun st => clean n (snd st))
           (ClimbForFlightPhases_step a ax)) in Eloop.
  - exact Eloop.
  - intros s k s'. apply step_clean.
  - simpl. eapply view_setitem_clean; eassumption.
Qed.

Lemma step_raises_IndexError (a : masked_array) (ax : span) (st : sample * masked_array)
    (k : nat) (e : exn) :
  ClimbForFlightPhases_step a ax st k = Raise e -> e = IndexError.
Proof.
  destruct st as [c out]. unfold ClimbForFlightPhases_step, getitem, view_setitem.
  destruct (_ !! k); simpl; [|congruence].
  destruct (_ !! (k - 1)); simpl; [|congruence].
  destruct (scalar_lt _ _); destruct (decide _); simpl; congruence.
Qed.

(** A loop whose last count is not a position of the view raises. *)
Lemma loop_overrun (a : masked_array) (ax : span) (m : nat) : forall k st,
  1 <= m -> length (slice a (start ax) (stop ax)) <= k + m - 1 ->
  for_each (ClimbForFlightPhases_step a ax) st (seq k m) = Raise IndexError.
Proof.
  induction m as [|m IH]; intros k st Hm Hlast; [lia|]. simpl.
  destruct (ClimbForFlightPhases_step a ax st k) as [st'|e] eqn:E; simpl.
  - destruct m as [|m'].
    + exfalso. destruct st as [c out]. unfold ClimbForFlightPhases_step in E.
      rewrite (getitem_out_of_bounds _ k) in E by lia. discriminate.
    + apply IH; lia.
  - f_equal. eapply step_raises_IndexError; eassumption.
Qed.

Section Derive.

Variable repair_mask_inplace : masked_array -> masked_array.

Local Abbreviation derive := (ClimbForFlightPhases_derive repair_mask_inplace).

(** X4: whatever the altitudes and the spans, masked samples included, an
    output that is produced has the length of the altitude array and holds
    no masked sample. *)
Theorem Climb_output_never_masked
    (alt_std : parameter) (airs : list span) (out : masked_array) :
  derive alt_std airs = Ok out ->
  length out = length (array alt_std) /\ Forall unmasked out.
Proof.
  unfold ClimbForFlightPhases_derive. intros H.
  apply (for_each_invariant (clean (length (array alt_std)))
           (ClimbForFlightPhases_span (repair_mask_inplace (array alt_std)))) in H.
  - exact H.
  - intros s sp s'. apply span_clean.
  - split; [apply length_replicate|]. apply Forall_replicate. reflexivity.
Qed.

(** X5: a first span that is empty, or starts beyond the array, or stops
    beyond its length makes the derivation raise [IndexError]. *)
Theorem Climb_unusable_span (alt_std : parameter) (sp : span) (rest : list span) :
  let a := repair_mask_inplace (array alt_std) in
  length a = length (array alt_std) ->
  stop sp <= start sp \/ length a <= start sp \/ length a < stop sp ->
  derive alt_std (sp :: rest) = Raise IndexError.
Proof.
  intros a Hrepair H. unfold ClimbForFlightPhases_derive. fold a. simpl.
  assert (ClimbForFlightPhases_span a (ma_zeros (length (array alt_std))) sp
          = Raise IndexError) as ->; [|reflexivity].
  unfold ClimbForFlightPhases_span.
  destruct (decide (stop sp <= start sp \/ length a <= start sp)) as [Hempty|Hne].
  - rewrite getitem_out_of_bounds; [reflexivity|]. rewrite slice_length. lia.
  - assert (start sp < stop sp /\ start sp < length a /\ length a < stop sp)
      as (Hne1 & Hstart & Hstop) by lia.
    rewrite (AltitudeAALFacts.getitem_total _ 0) by (rewrite slice_length; lia).
    simpl. rewrite view_setitem_Ok;
      [|rewrite slice_length; unfold ma_zeros; rewrite length_replicate; lia|reflexivity].
    simpl. rewrite loop_overrun; [reflexivity|lia|rewrite slice_length; lia].
Qed.

End Derive.

(** A masked sample in the middle of a span. *)
Lemma Climb_output_never_masked_witness :
  Forall unmasked [Sample 0 false; Sample 0 false; Sample 20 false].
Proof.
  exact (proj2 (Climb_output_never_masked Fixtures.no_repair
    (mkParameter "Altitude STD" [Sample 100 false; Sample 0 true; Sample 120 false] 1 0)
    [Span 0 3] [Sample 0 false; Sample 0 false; Sample 20 false] eq_refl)).
Defined.

Lemma Climb_unusable_span_witness :
  ClimbForFlightPhases_derive Fixtures.no_repair
    (Fixtures.channel "Altitude STD" [100; 110; 90]%Q) [Span 1 4]
  = Raise IndexError.
Proof.
  apply (Climb_unusable_span Fixtures.no_repair
    (Fixtures.channel "Altitude STD" [100; 110; 90]%Q) (Span 1 4) [] eq_refl).
  right. right. simpl. lia.
Defined.

End ClimbMore.

(** ** ClimbForFlightPhases on steady climbs and descents *)

Module ClimbSteady.
Import Numpy DerivedParameters Vocabulary NumpyFacts SpanFacts ClimbFacts.

(** While no sample is lower than the one before, the floor stays at the
    first sample of the span. *)
Lemma running_floor_ascending (view : masked_array) (x0 : sample) :
  Forall unmasked view -> view !! 0 = Some x0 ->
  (forall k x p, view !! k = Some p -> view !! S k = Some x -> (data p <= data x)%Q) ->
  forall k, k < length view -> running_floor view k = x0.
Proof.
  intros Hun H0 Hasc. induction k as [|k IH]; intros Hk.
  - destruct view as [|z rest]; [discriminate|]. simpl in *. now injection H0.
  - destruct (lookup_lt_is_Some_2 view (S k) Hk) as [x Hx].
    destruct (lookup_lt_is_Some_2 view k) as [p Hp]; [lia|].
    destruct (climb_of_step view k x p Hx Hp) as [_ ->].
    rewrite Forall_lookup in Hun.
    destruct (scalar_lt x p) eqn:E; [|apply IH; lia].
    apply (scalar_lt_unmasked x p (Hun _ _ Hx) (Hun _ _ Hp)) in E.
    specialize (Hasc k x p Hp Hx). lra.
Qed.

Lemma climb_of_ascending (view : masked_array) (x0 : sample) :
  Forall unmasked view -> view !! 0 = Some x0 ->
  (forall k x p, view !! k = Some p -> view !! S k = Some x -> (data p <= data x)%Q) ->
  forall k x, view !! k = Some x ->
  exists y, climb_of view !! k = Some y /\ mask y = false
    /\ (data y == data x - data x0)%Q.
Proof.
  intros Hun H0 Hasc k x Hx. destruct k as [|k].
  - destruct view as [|z rest]; [discriminate|]. simpl in *.
    exists (scalar 0). split; [reflexivity|]. split; [reflexivity|].
    injection H0 as ->. injection Hx as ->. simpl. lra.
  - assert (S k < length view) as Hk by (eapply lookup_lt_Some; eassumption).
    destruct (lookup_lt_is_Some_2 view k) as [p Hp]; [lia|].
    destruct (climb_of_step view k x p Hx Hp) as [-> _].
    rewrite (running_floor_ascending view x0 Hun H0 Hasc k) by lia.
    pose proof Hun as Hun'. rewrite Forall_lookup in Hun'.
    destruct (scalar_lt x p) eqn:E.
    + apply (scalar_lt_unmasked x p (Hun' _ _ Hx) (Hun' _ _ Hp)) in E.
      specialize (Hasc k x p Hp Hx). lra.
    + eexists. split; [reflexivity|].
      rewrite sample_sub_unmasked by (eapply Hun'; eassumption).
      split; reflexivity.
Qed.

Lemma climb_of_descending (view : masked_array) :
  Forall unmasked view ->
  (forall k x p, view !! k = Some p -> view !! S k = Some x -> (data x < data p)%Q) ->
  forall k, k < length view -> climb_of view !! k = Some (scalar 0).
Proof.
  intros Hun Hdesc k Hk. destruct k as [|k].
  - destruct view; [simpl in Hk; lia|reflexivity].
  - destruct (lookup_lt_is_Some_2 view (S k) Hk) as [x Hx].
    destruct (lookup_lt_is_Some_2 view k) as [p Hp]; [lia|].
    destruct (climb_of_step view k x p Hx Hp) as [-> _].
    rewrite Forall_lookup in Hun.
    assert (scalar_lt x p = true) as ->; [|reflexivity].
    apply (scalar_lt_unmasked x p (Hun _ _ Hx) (Hun _ _ Hp)).
    now apply (Hdesc k).
Qed.

Section Derive.

Variable repair_mask_inplace : masked_array -> masked_array.

Local Abbreviation derive := (ClimbForFlightPhases_derive repair_mask_inplace).

(** X6: in a span where the altitude never drops from one sample to the
    next, the node stores the altitude gained since the start of the span;
    in a span where every sample is lower than the one before, it stores
    zero throughout. *)
Theorem Climb_steady_flight (alt_std : parameter) (airs : list span) (sp : span) :
  let a := repair_mask_inplace (array alt_std) in
  length a = length (array alt_std) ->
  Forall (climb_valid a) airs ->
  ForallOrdPairs disjoint airs ->
  sp ∈ airs ->
  exists out, derive alt_std airs = Ok out
    /\ ((forall i x p, in_span sp i -> in_span sp (S i) ->
         a !! i = Some p -> a !! S i = Some x -> (data p <= data x)%Q) ->
        forall i x x0, in_span sp i -> a !! i = Some x -> a !! start sp = Some x0 ->
        exists y, out !! i = Some y /\ mask y = false
          /\ (data y == data x - data x0)%Q)
    /\ ((forall i x p, in_span sp i -> in_span sp (S i) ->
         a !! i = Some p -> a !! S i = Some x -> (data x < data p)%Q) ->
        forall i, in_span sp i -> out !! i = Some (scalar 0)).
Proof.
  intros a Hrepair Hvalid Hdis Hsp. unfold ClimbForFlightPhases_derive. fold a.
  destruct (for_each_spans (ClimbForFlightPhases_span a) (length a)
              (climb_valid a) (climb_value a)) with
    (spans := airs) (out := ma_zeros (length (array alt_std)))
    as (out & Hloop & Hlen & Hout & Hin).
  { intros out sp' Hlen Hv. now apply climb_span_value. }
  { unfold ma_zeros. rewrite length_replicate. congruence. }
  { exact Hvalid. }
  exists out. split; [exact Hloop|].
  rewrite Forall_forall in Hvalid. destruct (Hvalid sp Hsp) as [[Hne Hstop] Hun].
  set (view := slice a (start sp) (stop sp)) in *.
  assert (forall k, k < stop sp - start sp -> view !! k = a !! (start sp + k)) as Hview
    by (intros k Hk; unfold view; now rewrite slice_lookup by lia).
  assert (length view = stop sp - start sp) as Hlv
    by (unfold view; rewrite slice_in_range; lia).
  split.
  - intros Hasc i x x0 Hi Hx Hx0.
    rewrite (Hin Hdis sp i Hsp Hi). unfold climb_value. fold view.
    unfold in_span in Hi.
    destruct (climb_of_ascending view x0 Hun) with (k := i - start sp) (x := x)
      as (y & Hy & Hm & Hd).
    + rewrite Hview by lia. now rewrite Nat.add_0_r.
    + intros k z p Hp Hz.
      assert (S k < stop sp - start sp)
        by (rewrite <- Hlv; eapply lookup_lt_Some; eassumption).
      rewrite Hview in Hp, Hz by lia.
      apply (Hasc (start sp + k) z p); unfold in_span; try lia; try assumption.
      now replace (S (start sp + k)) with (start sp + S k) by lia.
    + rewrite Hview by lia. now replace (start sp + (i - start sp)) with i by lia.
    + exists y. split; [|split; assumption].
      now rewrite (list_lookup_total_correct _ _ _ Hy).
  - intros Hdesc i Hi.
    rewrite (Hin Hdis sp i Hsp Hi). unfold climb_value. fold view.
    unfold in_span in Hi. f_equal. apply list_lookup_total_correct.
    apply climb_of_descending; [exact Hun| |lia].
    intros k z p Hp Hz.
    assert (S k < stop sp - start sp)
      by (rewrite <- Hlv; eapply lookup_lt_Some; eassumption).
    rewrite Hview in Hp, Hz by lia.
    apply (Hdesc (start sp + k) z p); unfold in_span; try lia; try assumption.
    now replace (S (start sp + k)) with (start sp + S k) by lia.
Qed.

End Derive.

(** A climb from 100 to 160 in four samples. *)
Lemma Climb_steady_flight_witness :
  exists out,
    ClimbForFlightPhases_derive Fixtures.no_repair
      (Fixtures.channel "Altitude STD" [100; 120; 120; 160]%Q) [Span 0 4] = Ok out.
Proof.
  destruct (Climb_steady_flight Fixtures.no_repair
    (Fixtures.channel "Altitude STD" [100; 120; 120; 160]%Q) [Span 0 4] (Span 0 4))
    as (out & Hout & _).
  - reflexivity.
  - constructor; [|constructor]. split; [simpl; lia|]. repeat constructor.
  - constructor; constructor.
  - apply list_elem_of_here.
  - exists out. exact Hout.
Defined.

End ClimbSteady.

(** ** The primary path of RateOfClimb as a whole *)

Module RateOfClimbMore.
Import Numpy DerivedParameters Vocabulary NumpyFacts RateOfClimbFacts.

Lemma broadcast2_mismatch {A B C} (f : A -> B -> C) (xs : list A) (ys : list B) :
  length xs <> length ys -> length xs <> 1 -> length ys <> 1 ->
  broadcast2 f xs ys = Raise ValueError.
Proof.
  intros Hne Hx Hy. unfold broadcast2. rewrite decide_False by exact Hne.
  destruct xs as [|x [|x' xs]]; destruct ys as [|y [|y' ys]];
    simpl in *; try reflexivity; congruence.
Qed.

Section PrimaryPath.

Variable first_order_washout : masked_array -> Q -> Q -> option sample -> masked_array.
Variable first_order_lag : masked_array -> Q -> Q -> Q -> masked_array.
Variable rate_of_change : parameter -> nat -> masked_array.
Variables AZ_WASHOUT_TC GRAVITY RATE_OF_CLIMB_LAG_TC : Q.

Local Abbreviation roc_derive :=
  (RateOfClimb_derive first_order_washout first_order_lag rate_of_change
     AZ_WASHOUT_TC GRAVITY RATE_OF_CLIMB_LAG_TC).
Local Abbreviation roc_altitude_of :=
  (RateOfClimb_roc_altitude first_order_washout RATE_OF_CLIMB_LAG_TC).
Local Abbreviation washout a az :=
  (first_order_washout a RATE_OF_CLIMB_LAG_TC (hz az) None).
Local Abbreviation inertial az az0 :=
  (first_order_lag
     (first_order_washout (array az) AZ_WASHOUT_TC (hz az) (Some az0))
     RATE_OF_CLIMB_LAG_TC (hz az) (GRAVITY * RATE_OF_CLIMB_LAG_TC)).

Hypothesis washout_length :
  forall a tc h init, length (first_order_washout a tc h init) = length a.

(** X8: with the three arrays of one common, non-zero length, filters that
    keep the length and a non-zero time constant, the primary path returns:
    every output sample is masked when one of the two washed-out altitudes
    or the inertial term is, and otherwise is the blended altitude rate plus
    the inertial term, times 60. *)
Theorem RateOfClimb_primary_output (az alt_std alt_rad : parameter) (az0 : sample) :
  ~ (RATE_OF_CLIMB_LAG_TC == 0)%Q ->
  (forall a tc h gain, length (first_order_lag a tc h gain) = length a) ->
  length (array alt_std) = length (array az) ->
  length (array alt_rad) = length (array az) ->
  array az !! 0 = Some az0 ->
  exists out, roc_derive (Some az) alt_std (Some alt_rad) = Ok out
    /\ length out = length (array az)
    /\ forall i b w ratio v,
         washout (array alt_std) az !! i = Some b ->
         washout (array alt_rad) az !! i = Some w ->
         RateOfClimb_std_rad_ratio alt_rad !! i = Some ratio ->
         inertial az az0 !! i = Some v ->
         exists y, out !! i = Some y
           /\ mask y = mask b || mask w || mask v
           /\ (mask y = false ->
               (data y == ((data b * ratio + data w * (1 - ratio))
                             / RATE_OF_CLIMB_LAG_TC + data v) * 60)%Q).
Proof.
  intros Htc Hlag Hstd Hrad H0.
  pose proof (std_rad_ratio_length alt_rad) as Hr.
  unfold RateOfClimb_derive.
  rewrite roc_altitude_pointwise by (rewrite washout_length; congruence).
  simpl. rewrite (proj2 (getitem_Ok _ _ _) H0). simpl.
  unfold ma_add. rewrite broadcast2_same_length
    by (rewrite !length_zip_with, Hlag, !washout_length; lia).
  simpl. eexists. split; [reflexivity|]. split.
  { unfold ma_mul_scalar.
    rewrite length_map, !length_zip_with, Hlag, !washout_length. lia. }
  intros i b w ratio v Hb Hw Hratio Hv.
  unfold ma_mul_scalar. rewrite list_lookup_fmap, !lookup_zip_with.
  rewrite Hb, Hw, Hratio, Hv. simpl. eexists. split; [reflexivity|].
  pose proof (blend_sample_mask _ b w ratio Htc) as Hbm.
  pose proof (blend_sample_data _ b w ratio Htc) as Hbd.
  remember (blend_sample RATE_OF_CLIMB_LAG_TC b w ratio) as bl eqn:Ebl. clear Ebl.
  unfold sample_mul, sample_add, ma_op, scalar. simpl.
  rewrite !orb_false_r, Hbm.
  split; [reflexivity|]. intros Hm. rewrite Hm.
  apply orb_false_iff in Hm as [Hm Hmv]. apply orb_false_iff in Hm as [Hmb Hmw].
  rewrite (Hbd Hmb Hmw). reflexivity.
Qed.

(** X9: the errors of the primary path: an empty acceleration array makes
    it raise [IndexError] at [az.array[0]], and altitude arrays of two
    different lengths, neither of them 1, make it raise [ValueError] at the
    first product. *)
Theorem RateOfClimb_primary_errors (az alt_std alt_rad : parameter) :
  (array az = [] -> length (array alt_std) = length (array alt_rad) ->
   roc_derive (Some az) alt_std (Some alt_rad) = Raise IndexError)
  /\ (length (array alt_std) <> length (array alt_rad) ->
      length (array alt_std) <> 1 -> length (array alt_rad) <> 1 ->
      roc_derive (Some az) alt_std (Some alt_rad) = Raise ValueError).
Proof.
  split.
  - intros Haz Halign. unfold RateOfClimb_derive.
    rewrite roc_altitude_pointwise by (rewrite washout_length; congruence).
    simpl. now rewrite Haz.
  - intros Hne H1 H2. unfold RateOfClimb_derive, RateOfClimb_roc_altitude, ma_mul_nd.
    rewrite (broadcast2_mismatch _ (washout (array alt_std) az)
               (RateOfClimb_std_rad_ratio alt_rad));
      [reflexivity| | |]; rewrite ?washout_length, ?std_rad_ratio_length; assumption.
Qed.

End PrimaryPath.

Lemma RateOfClimb_primary_output_witness :
  exists out,
    RateOfClimb_derive Fixtures.stand_in_filter (fun a _ _ _ => a)
      Fixtures.stand_in_rate_of_change 60 (322 # 10) 6
      (Some (Fixtures.channel "Acceleration Vertical" [0; 0]%Q))
      (Fixtures.channel "Altitude STD" [1000; 1012]%Q)
      (Some (Fixtures.channel "Altitude Radio" [30; 120]%Q)) = Ok out
    /\ length out = 2.
Proof.
  destruct (RateOfClimb_primary_output Fixtures.stand_in_filter (fun a _ _ _ => a)
    Fixtures.stand_in_rate_of_change 60 (322 # 10) 6 (fun _ _ _ _ => eq_refl)
    (Fixtures.channel "Acceleration Vertical" [0; 0]%Q)
    (Fixtures.channel "Altitude STD" [1000; 1012]%Q)
    (Fixtures.channel "Altitude Radio" [30; 120]%Q) (scalar 0))
    as (out & Hout & Hlen & _).
  - intros H. discriminate H.
  - reflexivity.
  - reflexivity.
  - reflexivity.
  - reflexivity.
  - exists out. split; [exact Hout | exact Hlen].
Defined.

Lemma RateOfClimb_primary_errors_witness :
  RateOfClimb_derive Fixtures.stand_in_filter (fun a _ _ _ => a)
    Fixtures.stand_in_rate_of_change 60 (322 # 10) 6
    (Some (Fixtures.channel "Acceleration Vertical" []))
    (Fixtures.channel "Altitude STD" [1000; 1012]%Q)
    (Some (Fixtures.channel "Altitude Radio" [30; 120]%Q))
  = Raise IndexError.
Proof.
  apply (proj1 (RateOfClimb_primary_errors Fixtures.stand_in_filter (fun a _ _ _ => a)
    Fixtures.stand_in_rate_of_change 60 (322 # 10) 6 (fun _ _ _ _ => eq_refl)
    (Fixtures.channel "Acceleration Vertical" [])
    (Fixtures.channel "Altitude STD" [1000; 1012]%Q)
    (Fixtures.channel "Altitude Radio" [30; 120]%Q))); reflexivity.
Defined.

End RateOfClimbMore.

(** ** Capability and derivation of AccelerationForwardsForFlightPhases *)

Module ForwardsMore.
Import Numpy DerivedParameters CapabilityFacts.

Section Derive.

Variable rate_of_change : parameter -> nat -> masked_array.
Variable repair_mask : masked_array -> masked_array.
Variables GRAVITY KTS_TO_FPS : Q.
Variables default_hz default_offset : Q.

Local Abbreviation forwards_derive :=
  (AccelerationForwardsForFlightPhases_derive rate_of_change repair_mask
     GRAVITY KTS_TO_FPS default_hz default_offset).

(** X10: when the node is handed the channels that are available and
    [None] for the others, its capability predicate says exactly whether the
    derivation returns: it returns when the predicate is true, and raises
    [AttributeError] on the missing airspeed when it is false.  The
    longitudinal acceleration, when there is one, is used whether or not
    airspeed is available. *)
Theorem AccelerationForwards_capability_is_exact
    (available : list string) (acc_long airspeed : option parameter) :
  (is_Some acc_long <-> "Acceleration Longitudinal" ∈ available) ->
  (is_Some airspeed <-> "Airspeed" ∈ available) ->
  (AccelerationForwardsForFlightPhases_can_operate available = true ->
   exists out, forwards_derive acc_long airspeed = Ok out)
  /\ (AccelerationForwardsForFlightPhases_can_operate available = false ->
      forwards_derive acc_long airspeed = Raise AttributeError)
  /\ (forall p, acc_long = Some p ->
      forwards_derive acc_long airspeed = Ok (repair_mask (array p))).
Proof.
  intros Hacc Hair.
  unfold AccelerationForwardsForFlightPhases_can_operate,
    AccelerationForwardsForFlightPhases_derive.
  split; [|split].
  - intros Hcan. destruct acc_long as [p|]; [eexists; reflexivity|].
    destruct airspeed as [q|]; [eexists; reflexivity|]. exfalso.
    destruct (contains available "Airspeed") eqn:E1.
    + apply contains_true, Hair in E1. now destruct E1.
    + destruct (contains available "Acceleration Longitudinal") eqn:E2; [|discriminate].
      apply contains_true, Hacc in E2. now destruct E2.
  - intros Hcan.
    destruct (contains available "Airspeed") eqn:E1; [discriminate|].
    destruct (contains available "Acceleration Longitudinal") eqn:E2; [discriminate|].
    destruct acc_long as [p|].
    + assert (contains available "Acceleration Longitudinal" = true)
        by (apply contains_true, Hacc; eauto). congruence.
    + destruct airspeed as [q|]; [|reflexivity].
      assert (contains available "Airspeed" = true)
        by (apply contains_true, Hair; eauto).
      congruence.
  - intros p ->. reflexivity.
Qed.

End Derive.

Lemma AccelerationForwards_capability_is_exact_witness :
  exists out,
    AccelerationForwardsForFlightPhases_derive Fixtures.stand_in_rate_of_change
      Fixtures.no_repair (322 # 10) (168781 # 100000) 1 0
      (Some (Fixtures.channel "Acceleration Longitudinal" [1 # 10; 2 # 10]%Q)) None
    = Ok out.
Proof.
  destruct (AccelerationForwards_capability_is_exact
    Fixtures.stand_in_rate_of_change Fixtures.no_repair
    (322 # 10) (168781 # 100000) 1 0 ["Acceleration Longitudinal"%string]
    (Some (Fixtures.channel "Acceleration Longitudinal" [1 # 10; 2 # 10]%Q)) None)
    as [H _].
  - split; intros _; [apply list_elem_of_here | eexists; reflexivity].
  - split; [intros [? H]; discriminate H|].
    intros H. apply list_elem_of_singleton in H. discriminate H.
  - apply H. reflexivity.
Defined.

End ForwardsMore.

(** ** The engine nodes *)

Module EngineFacts.
Import Numpy DerivedParameters MoreNodes.

Lemma any_available_true (deps available : list string) :
  any_available deps available = true <-> exists d, d ∈ deps /\ d ∈ available.
Proof.
  unfold any_available. rewrite existsb_exists. split.
  - intros (d & Hd & Hc). exists d. split; [now apply list_elem_of_In|].
    now apply CapabilityFacts.contains_true.
  - intros (d & Hd & Ha). exists d. split; [now apply list_elem_of_In|].
    now apply CapabilityFacts.contains_true.
Qed.

Lemma Eng_can_operate_cases (deps available : list string) :
  (Eng_can_operate deps available = Some true
   <-> exists d, d ∈ deps /\ d ∈ available)
  /\ (Eng_can_operate deps available = None
      <-> forall d, d ∈ deps -> d ∉ available)
  /\ Eng_can_operate deps available <> Some false.
Proof.
  pose proof (any_available_true deps available) as H.
  unfold Eng_can_operate. destruct (any_available deps available).
  - split; [|split].
    + split; [intros _; now apply H|reflexivity].
    + split; [discriminate|]. intros Hnone. exfalso.
      destruct (proj1 H eq_refl) as (d & Hd & Ha). exact (Hnone d Hd Ha).
    + discriminate.
  - split; [|split].
    + split; [discriminate|]. intros Hex. apply H in Hex. discriminate.
    + split; [|reflexivity]. intros _ d Hd Ha.
      assert (false = true) by (apply H; eauto). discriminate.
    + discriminate.
Qed.

(** X11: the capability predicates of [EngN1Average], [EngN1Minimum] and
    [EngN2Average] answer [True] exactly when at least one of the four engine
    channels the node names is available; otherwise they fall off the end
    and answer [None], never [False].  ([get_dependency_names] is taken to
    list the inputs named in the signature of [derive].) *)
Theorem Eng_can_operate_True_or_None (available : list string) :
  (EngN1Average_can_operate available = Some true
   <-> exists d, d ∈ EngN1_dependency_names /\ d ∈ available)
  /\ (EngN1Average_can_operate available = None
      <-> forall d, d ∈ EngN1_dependency_names -> d ∉ available)
  /\ EngN1Average_can_operate available <> Some false
  /\ EngN1Minimum_can_operate available = EngN1Average_can_operate available
  /\ (EngN2Average_can_operate available = Some true
      <-> exists d, d ∈ EngN2_dependency_names /\ d ∈ available)
  /\ (EngN2Average_can_operate available = None
      <-> forall d, d ∈ EngN2_dependency_names -> d ∉ available)
  /\ EngN2Average_can_operate available <> Some false.
Proof.
  destruct (Eng_can_operate_cases EngN1_dependency_names available) as (H1 & H2 & H3).
  destruct (Eng_can_operate_cases EngN2_dependency_names available) as (H4 & H5 & H6).
  unfold EngN1Average_can_operate, EngN1Minimum_can_operate, EngN2Average_can_operate.
  repeat split; try tauto; try apply H1; try apply H2; try apply H4; try apply H5.
Qed.

(** *** Reductions over the stacked engines *)

Lemma reduce_axis0_lookup (f : list Q -> sample) (row : masked_array)
    (rows : list masked_array) (i : nat) :
  i < length row ->
  reduce_axis0 f (row :: rows) !! i = Some (f (column (row :: rows) i)).
Proof.
  intros Hi. unfold reduce_axis0.
  rewrite list_lookup_fmap, lookup_seq_lt by exact Hi. reflexivity.
Qed.

Lemma reduce_axis0_length (f : list Q -> sample) (row : masked_array)
    (rows : list masked_array) :
  length (reduce_axis0 f (row :: rows)) = length row.
Proof. unfold reduce_axis0. now rewrite length_map, length_seq. Qed.

Section SingleEngine.

Variable vstack_failure : list masked_array -> result (list masked_array).

Lemma vstack_single (ps : list (option parameter)) (row : masked_array) :
  present_arrays ps = [row] -> vstack_params vstack_failure ps = Ok [row].
Proof. unfold vstack_params. now intros ->. Qed.

(** X13: with exactly one engine channel present, the average and the
    minimum are that engine's array: of its length, masked where it is
    masked and equal to it elsewhere.  ([vstack_params] is taken to stack the
    arrays of the engines that are present.) *)
Theorem Eng_single_engine (eng1 eng2 eng3 eng4 : option parameter) (row : masked_array) :
  present_arrays [eng1; eng2; eng3; eng4] = [row] ->
  exists mean lowest,
    EngN1Average_derive vstack_failure eng1 eng2 eng3 eng4 = Ok mean
    /\ EngN2Average_derive vstack_failure eng1 eng2 eng3 eng4 = Ok mean
    /\ EngN1Minimum_derive vstack_failure eng1 eng2 eng3 eng4 = Ok lowest
    /\ length mean = length row /\ length lowest = length row
    /\ forall i s, row !! i = Some s ->
       exists av lo, mean !! i = Some av /\ lowest !! i = Some lo
         /\ mask av = mask s /\ mask lo = mask s
         /\ (mask s = false ->
             (data av == data s)%Q /\ data lo = data s).
Proof.
  unfold EngN1Average_derive, EngN1Minimum_derive, EngN2Average_derive.
  intros H. rewrite (vstack_single _ row H).
  exists (ma_average_axis0 [row]), (ma_min_axis0 [row]).
  split; [reflexivity|]. split; [reflexivity|]. split; [reflexivity|].
  unfold ma_average_axis0, ma_min_axis0. rewrite !reduce_axis0_length.
  split; [reflexivity|]. split; [reflexivity|].
  intros i s Hs.
  assert (i < length row) as Hi by (eapply lookup_lt_Some; eassumption).
  rewrite !reduce_axis0_lookup by exact Hi.
  eexists. eexists. split; [reflexivity|]. split; [reflexivity|].
  unfold column. simpl. rewrite Hs. simpl.
  destruct (mask s) eqn:Hm; simpl.
  + repeat split; discriminate.
  + repeat split; try reflexivity. unfold Qsum. simpl. field.
Qed.

End SingleEngine.

(** Only the first engine is recorded. *)
Lemma Eng_single_engine_witness :
  exists mean,
    EngN1Average_derive (fun _ => Raise ValueError)
      (Some (Fixtures.channel "Eng (1) N1" [85; 86]%Q)) None None None = Ok mean
    /\ length mean = 2.
Proof.
  destruct (Eng_single_engine (fun _ => Raise ValueError)
    (Some (Fixtures.channel "Eng (1) N1" [85; 86]%Q)) None None None
    (Fixtures.plain [85; 86]%Q) eq_refl)
    as (mean & lowest & Hmean & _ & _ & Hlen & _).
  exists mean. split; [exact Hmean | exact Hlen].
Defined.

End EngineFacts.

(** ** AirspeedMinusVref *)

Module AirspeedMinusVrefFacts.
Import Numpy DerivedParameters MoreNodes NumpyFacts.

Section Aligned.

Variable align : parameter -> parameter -> masked_array.

Local Abbreviation derive := (AirspeedMinusVref_derive align).

(** X14: when the aligned Vref has the length of the airspeed array the node
    returns their difference sample by sample, masked where either is.  An
    aligned Vref of another length makes it raise [ValueError], unless that
    length is one: a single Vref sample is then subtracted from every
    airspeed sample, without any error. *)
Theorem AirspeedMinusVref_lengths (airspeed vref : parameter) :
  (length (align vref airspeed) = length (array airspeed) ->
   exists out, derive airspeed vref = Ok out
     /\ length out = length (array airspeed)
     /\ forall i x v, array airspeed !! i = Some x -> align vref airspeed !! i = Some v ->
        exists y, out !! i = Some y /\ mask y = mask x || mask v
          /\ (mask y = false -> data y = (data x - data v)%Q))
  /\ (length (align vref airspeed) <> length (array airspeed) ->
      length (align vref airspeed) <> 1 -> length (array airspeed) <> 1 ->
      derive airspeed vref = Raise ValueError)
  /\ (forall v, align vref airspeed = [v] -> length (array airspeed) <> 1 ->
      derive airspeed vref = Ok (map (fun x => sample_sub x v) (array airspeed))).
Proof.
  unfold AirspeedMinusVref_derive, ma_sub. split; [|split].
  - intros Hlen. rewrite broadcast2_same_length by congruence.
    eexists. split; [reflexivity|].
    split; [rewrite length_zip_with; lia|].
    intros i x v Hx Hv. rewrite lookup_zip_with, Hx, Hv. simpl.
    eexists. split; [reflexivity|]. split; [reflexivity|].
    intros Hm. unfold sample_sub, ma_op in *. simpl in *. now rewrite Hm.
  - intros Hne H1 H2. apply RateOfClimbMore.broadcast2_mismatch; congruence.
  - intros v Hv Hne. rewrite Hv. unfold broadcast2.
    rewrite decide_False by (simpl; congruence).
    destruct (array airspeed) as [|x [|x' l]]; reflexivity.
Qed.

End Aligned.

End AirspeedMinusVrefFacts.

(** ** The URLs and queries of the HTTP handler *)

Module LookupFacts.
Import ApiHandler MoreLookups.

Lemma list_ascii_of_string_app (s t : string) :
  list_ascii_of_string (s +:+ t) = list_ascii_of_string s ++ list_ascii_of_string t.
Proof. induction s as [|c s IH]; simpl; [reflexivity|]. now rewrite IH. Qed.

Lemma lstrip_slash_no_slash (cs t : list ascii) :
  lstrip_slash cs <> "/"%char :: t.
Proof.
  induction cs as [|c cs IH]; simpl; [discriminate|].
  destruct (Ascii.eqb c "/") eqn:E; [exact IH|].
  intros [= -> _]. discriminate E.
Qed.

Lemma rstrip_slash_app_slash (s : string) :
  rstrip_slash (s +:+ "/") = rstrip_slash s.
Proof.
  unfold rstrip_slash. rewrite list_ascii_of_string_app. simpl.
  now rewrite rev_app_distr.
Qed.

Lemma rstrip_slash_no_trailing_slash (s t : string) :
  rstrip_slash s <> t +:+ "/".
Proof.
  unfold rstrip_slash. intros H.
  apply (f_equal list_ascii_of_string) in H.
  rewrite list_ascii_of_string_of_list_ascii, list_ascii_of_string_app in H.
  apply (f_equal (@rev ascii)) in H.
  rewrite rev_involutive, rev_app_distr in H. simpl in H.
  exact (lstrip_slash_no_slash _ _ H).
Qed.

Section URLs.

Variable BASE_URL : string.
Variable str : pyval -> string.
Variable format_ll : Q -> Q -> string.
Variable int_times_1000 : Q -> Z.
Variable urlencode : gmap string pyval -> string.

(** X15: slashes at the end of [BASE_URL] never reach a request: the three
    URLs are the same for [BASE_URL] and for [BASE_URL] followed by a slash,
    and the base they start with does not end in a slash. *)
Theorem base_url_trailing_slash (code airport heading : pyval)
    (latitude longitude : Q) (la lo ilsfreq : option Q) (hint : option string) :
  get_airport_url (BASE_URL +:+ "/") str code = get_airport_url BASE_URL str code
  /\ get_nearest_airport_url (BASE_URL +:+ "/") format_ll latitude longitude
     = get_nearest_airport_url BASE_URL format_ll latitude longitude
  /\ AnalysisEngineAPIHandlerHTTP.get_nearest_runway_url (BASE_URL +:+ "/") str
       format_ll int_times_1000 urlencode airport heading la lo ilsfreq hint
     = AnalysisEngineAPIHandlerHTTP.get_nearest_runway_url BASE_URL str
         format_ll int_times_1000 urlencode airport heading la lo ilsfreq hint
  /\ rstrip_slash (rstrip_slash BASE_URL) = rstrip_slash BASE_URL
  /\ forall t, rstrip_slash BASE_URL <> t +:+ "/".
Proof.
  unfold get_airport_url, get_nearest_airport_url,
    AnalysisEngineAPIHandlerHTTP.get_nearest_runway_url.
  rewrite !rstrip_slash_app_slash. repeat split.
  - unfold rstrip_slash at 2 3.
    set (l := lstrip_slash (rev (list_ascii_of_string BASE_URL))).
    unfold rstrip_slash.
    rewrite list_ascii_of_string_of_list_ascii, rev_involutive.
    assert (lstrip_slash l = l) as ->; [|reflexivity].
    pose proof (lstrip_slash_no_slash (rev (list_ascii_of_string BASE_URL))) as Hl.
    fold l in Hl. destruct l as [|c l']; [reflexivity|]. simpl.
    destruct (Ascii.eqb c "/") eqn:E; [|reflexivity].
    apply Ascii.eqb_eq in E. subst c. now destruct (Hl l').
  - intros t. apply rstrip_slash_no_trailing_slash.
Qed.

(** X17: an ILS frequency of zero and a hint outside the three accepted
    words are left out without any error: the request is the one made with
    no frequency, with no hint. *)
Theorem get_nearest_runway_drops_silently (airport heading : pyval)
    (latitude longitude ilsfreq : option Q) (hint : option string) :
  (float_truthy ilsfreq = false ->
   AnalysisEngineAPIHandlerHTTP.get_nearest_runway_url BASE_URL str format_ll
     int_times_1000 urlencode airport heading latitude longitude ilsfreq hint
   = AnalysisEngineAPIHandlerHTTP.get_nearest_runway_url BASE_URL str format_ll
       int_times_1000 urlencode airport heading latitude longitude None hint)
  /\ ((forall h, hint = Some h -> h ∉ ["takeoff"; "landing"; "approach"]) ->
      AnalysisEngineAPIHandlerHTTP.get_nearest_runway_url BASE_URL str format_ll
        int_times_1000 urlencode airport heading latitude longitude ilsfreq hint
      = AnalysisEngineAPIHandlerHTTP.get_nearest_runway_url BASE_URL str format_ll
          int_times_1000 urlencode airport heading latitude longitude ilsfreq None).
Proof.
  unfold AnalysisEngineAPIHandlerHTTP.get_nearest_runway_url,
    AnalysisEngineAPIHandlerHTTP.get_nearest_runway_params.
  split.
  - intros H. destruct ilsfreq as [f|]; [|reflexivity]. now rewrite H.
  - intros H. destruct hint as [h|]; [|reflexivity].
    rewrite bool_decide_eq_false_2 by now apply H. reflexivity.
Qed.

End URLs.

End LookupFacts.

(** ** The shape of the two altitude signals *)

Module ShapeFacts.
Import Numpy DerivedParameters Vocabulary NumpyFacts SpanFacts AltitudeAALFacts
  RateOfClimbFacts.

Lemma filled_le_unmasked (x y : sample) :
  mask x = false -> mask y = false ->
  filled_le (filled_min x) (filled_min y) -> (data x <= data y)%Q.
Proof.
  unfold filled_le, filled_min. intros -> ->. simpl.
  rewrite negb_false_iff. apply Qle_bool_iff.
Qed.

Section Derive.

Variable repair_mask_inplace : masked_array -> masked_array.

Local Abbreviation derive := (AltitudeAALForFlightPhases_derive repair_mask_inplace).

(** X19: on altitudes without masked samples, with usable spans, the height
    stored at the start of a span is zero whenever the peak comes later, and
    from the peak to the end of the span no stored height exceeds the one
    stored at the peak. *)
Theorem AltitudeAAL_shape (alt_std : parameter) (fast : list span) (sp : span) :
  let a := repair_mask_inplace (array alt_std) in
  length a = length (array alt_std) ->
  Forall unmasked a ->
  Forall (fun sp => start sp < stop sp < length a) fast ->
  ForallOrdPairs disjoint fast ->
  sp ∈ fast ->
  exists out peak, derive alt_std fast = Ok out
    /\ ma_argmax (slice a (start sp) (stop sp)) = Ok peak
    /\ start sp + peak < stop sp
    /\ (0 < peak ->
        exists y, out !! start sp = Some y /\ mask y = false /\ (data y == 0)%Q)
    /\ (forall i y top, start sp + peak <= i < stop sp ->
        out !! i = Some y -> out !! (start sp + peak) = Some top ->
        mask y = false /\ mask top = false /\ (data y <= data top)%Q).
Proof.
  intros a Hrepair Hun Hvalid Hdis Hsp.
  destruct (derive_values repair_mask_inplace alt_std fast Hrepair Hvalid)
    as (out & Hout & Hlen & _ & Hin).
  specialize (Hin Hdis). fold a in Hin.
  rewrite Forall_forall in Hvalid. destruct (Hvalid sp Hsp) as [Hne Hstop].
  rewrite Forall_lookup in Hun.
  destruct (lookup_lt_is_Some_2 a (start sp)) as [x0 Hx0]; [lia|].
  destruct (Hin sp (start sp) x0 Hsp) as
    (peak & at_peak & at_begin & at_end & Hargmax & Hpeak & Hmax & _ & Hb & He & Hat);
    [unfold in_span; lia|exact Hx0|].
  assert (start sp + peak < stop sp) as Hlt.
  { assert (slice a (start sp) (stop sp) <> []) as Hview by (apply slice_nonempty; lia).
    rewrite (ma_argmax_Ok _ Hview) in Hargmax. injection Hargmax as <-.
    pose proof (argmax_of_lt_length _ Hview) as H.
    rewrite slice_in_range in H by lia. lia. }
  exists out, peak. split; [exact Hout|]. split; [exact Hargmax|]. split; [exact Hlt|].
  split.
  - intros Hpos. rewrite Hat, decide_True by lia.
    rewrite Hb in Hx0. injection Hx0 as ->.
    rewrite sample_sub_unmasked by (eapply Hun; eassumption).
    eexists. split; [reflexivity|]. split; [reflexivity|]. simpl. lra.
  - intros i y top Hi Hy Htop.
    destruct (lookup_lt_is_Some_2 a i) as [x Hx]; [lia|].
    destruct (Hin sp i x Hsp) as
      (peak' & at_peak' & at_begin' & at_end' & Hargmax' & _ & _ & _ & _ & He' & Hati);
      [unfold in_span; lia|exact Hx|].
    destruct (Hin sp (start sp + peak) at_peak Hsp) as
      (peak'' & ? & ? & at_end'' & Hargmax'' & _ & _ & _ & _ & He'' & Hatp);
      [unfold in_span; lia|exact Hpeak|].
    rewrite Hargmax in Hargmax', Hargmax''.
    injection Hargmax' as <-. injection Hargmax'' as <-.
    rewrite He in He', He''. injection He' as <-. injection He'' as <-.
    rewrite Hati, decide_False in Hy by lia.
    rewrite Hatp, decide_False in Htop by lia.
    rewrite sample_sub_unmasked in Hy, Htop by (eapply Hun; eassumption).
    injection Hy as <-. injection Htop as <-. simpl.
    split; [reflexivity|]. split; [reflexivity|].
    assert (data x <= data at_peak)%Q.
    { apply filled_le_unmasked; [eapply Hun; eassumption..|].
      apply (Hmax i); [unfold in_span; lia|exact Hx]. }
    lra.
Qed.

End Derive.

Lemma AltitudeAAL_shape_witness :
  exists out peak,
    AltitudeAALForFlightPhases_derive Fixtures.no_repair
      (Fixtures.channel "Altitude STD" [0; 100; 50; 10]%Q) [Span 0 3] = Ok out
    /\ ma_argmax (slice (Fixtures.plain [0; 100; 50; 10]%Q) 0 3) = Ok peak.
Proof.
  destruct (AltitudeAAL_shape Fixtures.no_repair
    (Fixtures.channel "Altitude STD" [0; 100; 50; 10]%Q) [Span 0 3] (Span 0 3))
    as (out & peak & Hout & Hpeak & _).
  - reflexivity.
  - repeat constructor.
  - repeat constructor; simpl; lia.
  - constructor; constructor.
  - apply list_elem_of_here.
  - exists out, peak. split; [exact Hout | exact Hpeak].
Defined.

(** X20: the changeover is progressive: of two samples, the one with the
    greater stored radio altitude never has the smaller ratio. *)
Theorem RateOfClimb_ratio_monotone (alt_rad : parameter) (i j : nat)
    (s t : sample) (ri rj : Q) :
  array alt_rad !! i = Some s -> array alt_rad !! j = Some t ->
  RateOfClimb_std_rad_ratio alt_rad !! i = Some ri ->
  RateOfClimb_std_rad_ratio alt_rad !! j = Some rj ->
  (data s <= data t)%Q -> (ri <= rj)%Q.
Proof.
  intros Hs Ht Hi Hj Hle.
  rewrite std_rad_ratio_lookup, Hs in Hi. rewrite std_rad_ratio_lookup, Ht in Hj.
  simpl in Hi, Hj. injection Hi as <-. injection Hj as <-.
  apply Q.max_le_compat_r, Q.min_le_compat_r.
  apply Qle_shift_div_l; [lra|].
  setoid_replace ((data s - 50) / 50 * 50)%Q with (data s - 50)%Q
    using relation Qeq by field.
  lra.
Qed.

Lemma RateOfClimb_ratio_monotone_witness :
  ((0 # 50) <= (25 # 50))%Q.
Proof.
  exact (RateOfClimb_ratio_monotone
    (Fixtures.channel "Altitude Radio" [50; 75]%Q) 0 1 (scalar 50) (scalar 75)
    (0 # 50) (25 # 50) eq_refl eq_refl eq_refl eq_refl ltac:(discriminate)).
Defined.

End ShapeFacts.
